(** * Wifi-client-monitor: device directory, scan merge and blacklist store

    A shallow embedding of [device_manager.py], of the scan and merge
    code of [wifi_scanner.py] and of the blacklist persistence of
    [config.py], with the properties of the specification stated and
    proved (or refuted) over it.

    Conventions of the model
    - Python [str] values are Rocq strings holding ASCII text (what
      [arp], scapy and nmap report for addresses).
    - Python [dict]s keep insertion order; they are association lists
      updated in place ([PyDict]).
    - [time.time()] returns a float; the model uses exact rationals
      ([Q]), so rounding of float subtraction is not represented.
    - Exceptions, the in-memory objects, the clock and the file
      [blacklist.json] are threaded through a reader/state/error monad.
    - [print] calls are dropped: standard output is not modelled. *)

From Stdlib Require Import String Ascii List Bool Arith ZArith QArith Qround Lia.
From Stdlib Require Import Numbers.DecimalString.
Import ListNotations.

Close Scope Q_scope.
Open Scope nat_scope.
Open Scope list_scope.
Open Scope string_scope.

(** ** Python string operations used by the sources *)

Module PyStr.

(** [str.isspace] on ASCII: tab, LF, VT, FF, CR, the separators
    0x1c-0x1f and the space. *)
Definition is_space (c : ascii) : bool :=
  let n := nat_of_ascii c in
  (((9 <=? n) && (n <=? 13)) || ((28 <=? n) && (n <=? 32)))%nat.

(** [s.startswith(p)] *)
Definition startswith (p s : string) : bool := String.prefix p s.

(** [s.endswith(suf)] *)
Definition endswith (suf s : string) : bool :=
  let ls := String.length s in
  let lf := String.length suf in
  (lf <=? ls)%nat && String.eqb (String.substring (ls - lf) lf s) suf.

(** [s.split(sep)] for a one-character separator: never empty. *)
Fixpoint split_char (sep : ascii) (s : string) : list string :=
  match s with
  | EmptyString => [EmptyString]
  | String c s' =>
      if Ascii.eqb c sep then EmptyString :: split_char sep s'
      else match split_char sep s' with
           | [] => [String c EmptyString]
           | t :: ts => String c t :: ts
           end
  end.

(** [s.split()]: the maximal runs of non-whitespace characters. *)
Fixpoint split_ws (s : string) : list string :=
  match s with
  | EmptyString => []
  | String c s' =>
      if is_space c then split_ws s'
      else match s' with
           | EmptyString => [String c EmptyString]
           | String c' _ =>
               if is_space c' then String c EmptyString :: split_ws s'
               else match split_ws s' with
                    | [] => [String c EmptyString]
                    | t :: ts => String c t :: ts
                    end
           end
  end.

Fixpoint lstrip (s : string) : string :=
  match s with
  | EmptyString => EmptyString
  | String c s' => if is_space c then lstrip s' else s
  end.

Fixpoint rstrip (s : string) : string :=
  match s with
  | EmptyString => EmptyString
  | String c s' =>
      match rstrip s' with
      | EmptyString => if is_space c then EmptyString else String c EmptyString
      | r => String c r
      end
  end.

(** [s.strip()] *)
Definition strip (s : string) : string := rstrip (lstrip s).

Fixpoint map_chars (f : ascii -> ascii) (s : string) : string :=
  match s with
  | EmptyString => EmptyString
  | String c s' => String (f c) (map_chars f s')
  end.

Definition upper_char (c : ascii) : ascii :=
  let n := nat_of_ascii c in
  if ((97 <=? n) && (n <=? 122))%nat then ascii_of_nat (n - 32) else c.

(** [s.upper()] *)
Definition upper (s : string) : string := map_chars upper_char s.

(** [s.replace(a, b)] for one-character [a] and [b]. *)
Definition replace_char (a b : ascii) (s : string) : string :=
  map_chars (fun c => if Ascii.eqb c a then b else c) s.

(** [x in [s1, s2, ...]] *)
Definition in_list (x : string) (l : list string) : bool :=
  existsb (String.eqb x) l.

(** Truth value of a string: non-empty. *)
Definition truthy (s : string) : bool :=
  match s with EmptyString => false | _ => true end.

Definition is_hex (c : ascii) : bool :=
  let n := nat_of_ascii c in
  (((48 <=? n) && (n <=? 57)) || ((65 <=? n) && (n <=? 70))
   || ((97 <=? n) && (n <=? 102)))%nat.

Definition is_mac_sep (c : ascii) : bool :=
  Ascii.eqb c ":" || Ascii.eqb c "-".

(** [n] repetitions of [[0-9A-Fa-f]{2}[:-]]; the rest of the string
    after them, when they match. *)
Fixpoint mac_groups (n : nat) (s : string) : option string :=
  match n with
  | O => Some s
  | S n' =>
      match s with
      | String a (String b (String c rest)) =>
          if is_hex a && is_hex b && is_mac_sep c
          then mac_groups n' rest else None
      | _ => None
      end
  end.

(** [re.match(r'^([0-9A-Fa-f]{2}[:-]){5}([0-9A-Fa-f]{2})$', s)]:
    [$] matches at the end and just before a final newline. *)
Definition re_match_mac (s : string) : bool :=
  match mac_groups 5 s with
  | Some (String a (String b tl)) =>
      is_hex a && is_hex b
      && (String.eqb tl EmptyString
          || String.eqb tl (String (ascii_of_nat 10) EmptyString))
  | _ => false
  end.

End PyStr.

(** ** Insertion-ordered dictionaries with string keys *)

Module PyDict.

Definition dict (V : Type) : Type := list (string * V).

Section Ops.
Context {V : Type}.

Definition empty : dict V := [].

(** [d.get(k)] / [d[k]] *)
Fixpoint get (k : string) (d : dict V) : option V :=
  match d with
  | [] => None
  | (k', v) :: d' => if String.eqb k k' then Some v else get k d'
  end.

(** [k in d] *)
Definition mem (k : string) (d : dict V) : bool :=
  match get k d with Some _ => true | None => false end.

(** [d[k] = v]: an existing key keeps its position, a new key goes
    last. *)
Fixpoint set (k : string) (v : V) (d : dict V) : dict V :=
  match d with
  | [] => [(k, v)]
  | (k', v') :: d' =>
      if String.eqb k k' then (k, v) :: d' else (k', v') :: set k v d'
  end.

(** [del d[k]] (the caller checks [k in d] first). *)
Fixpoint del (k : string) (d : dict V) : dict V :=
  match d with
  | [] => []
  | (k', v') :: d' =>
      if String.eqb k k' then del k d' else (k', v') :: del k d'
  end.

Definition keys (d : dict V) : list string := map fst d.

(** [not d] *)
Definition is_empty (d : dict V) : bool :=
  match d with [] => true | _ => false end.

End Ops.

End PyDict.

Import PyDict.

(** ** Data model *)

(** An observation, as the scan backends build it and as
    [update_device] receives it: [{'ip', 'mac', 'hostname'}]. *)
Module Device.
Record t := mk { ip : string; mac : string; hostname : string }.
End Device.

(** A stored device record: [{**device_info, 'first_seen', 'last_seen',
    'connection_duration', 'is_blacklisted'}]. *)
Module Info.
Record t := mk {
  ip : string;
  mac : string;
  hostname : string;
  first_seen : Q;
  last_seen : Q;
  connection_duration : Q;
  is_blacklisted : bool
}.
End Info.

(** A record as [get_all_devices] returns it. *)
Module Row.
Record t := mk {
  mac : string;
  ip : string;
  hostname : string;
  connection_duration : string;
  is_blacklisted : bool;
  first_seen : string;
  status : string
}.
End Row.

(** A blacklist entry [{'timestamp', 'reason', 'ip'}]; [ip] is [None]
    for JSON [null] (and for an entry without the key, which
    [.get('ip')] reads alike). *)
Module Entry.
Record t := mk { timestamp : string; reason : string; ip : option string }.
End Entry.

(** What [blacklist.json] holds. [Stored b] is a file that [json.load]
    reads back as the mapping [b]; files holding JSON of another shape
    are outside the model. *)
Inductive file :=
| Missing
| Garbled
| Stored (b : dict Entry.t).

Inductive exn :=
| NameError (name : string)
| OSError
| JSONDecodeError
| KeyError
| AttributeError
| ExternalError.

Inductive outcome (A : Type) :=
| Ok (a : A)
| Raise (e : exn).
Arguments Ok {A} a.
Arguments Raise {A} e.

(** The part of the world that the code reads and never writes. *)
Record env := mk_env {
  clock : nat -> Q;          (* successive readings of the system clock *)
  strftime : Q -> string;    (* fromtimestamp(t).strftime('%Y-%m-%d %H:%M:%S') *)
  isoformat : Q -> string;   (* datetime.now().isoformat() at a reading *)
  writable : bool;           (* whether open('blacklist.json', 'w') succeeds *)
  system : string;           (* platform.system() *)
  LOCAL_IP : string;         (* config.LOCAL_IP *)
  NETWORK_RANGE : string;    (* config.NETWORK_RANGE *)
  resolver : string -> string (* the name service behind get_hostname *)
}.

(** The objects the code mutates: the [DeviceManager] instance, the
    number of clock readings taken, the file, the firewall rules and the
    nmap handle ([NmapState._available], [self.nm is not None]). *)
Record state := mk_state {
  devices : dict Info.t;
  blacklist : dict Entry.t;
  connection_times : dict Q;
  ticks : nat;
  blacklist_json : file;
  firewall : list string;
  nmap_available : bool;
  nm : bool
}.

Definition set_devices (v : dict Info.t) (s : state) : state :=
  mk_state v (blacklist s) (connection_times s) (ticks s) (blacklist_json s)
           (firewall s) (nmap_available s) (nm s).
Definition set_blacklist (v : dict Entry.t) (s : state) : state :=
  mk_state (devices s) v (connection_times s) (ticks s) (blacklist_json s)
           (firewall s) (nmap_available s) (nm s).
Definition set_connection_times (v : dict Q) (s : state) : state :=
  mk_state (devices s) (blacklist s) v (ticks s) (blacklist_json s)
           (firewall s) (nmap_available s) (nm s).
Definition set_ticks (v : nat) (s : state) : state :=
  mk_state (devices s) (blacklist s) (connection_times s) v (blacklist_json s)
           (firewall s) (nmap_available s) (nm s).
Definition set_blacklist_json (v : file) (s : state) : state :=
  mk_state (devices s) (blacklist s) (connection_times s) (ticks s) v
           (firewall s) (nmap_available s) (nm s).
Definition set_firewall (v : list string) (s : state) : state :=
  mk_state (devices s) (blacklist s) (connection_times s) (ticks s)
           (blacklist_json s) v (nmap_available s) (nm s).
Definition set_nmap (avail handle : bool) (s : state) : state :=
  mk_state (devices s) (blacklist s) (connection_times s) (ticks s)
           (blacklist_json s) (firewall s) avail handle.

(** ** The monad: read the environment, thread the state, maybe raise *)

Definition M (A : Type) : Type := env -> state -> outcome A * state.

Definition ret {A} (a : A) : M A := fun _ s => (Ok a, s).

Definition bind {A B} (m : M A) (k : A -> M B) : M B :=
  fun e s =>
    match m e s with
    | (Ok a, s') => k a e s'
    | (Raise x, s') => (Raise x, s')
    end.

Definition raise {A} (x : exn) : M A := fun _ s => (Raise x, s).

(** [try: body / except Exception: handler] (also the bare [except:]);
    what the body did to the state before raising stays done. *)
Definition try_except {A} (body : M A) (handler : exn -> M A) : M A :=
  fun e s =>
    match body e s with
    | (Ok a, s') => (Ok a, s')
    | (Raise x, s') => handler x e s'
    end.

Definition ask {A} (f : env -> A) : M A := fun e s => (Ok (f e), s).
Definition gets {A} (f : state -> A) : M A := fun _ s => (Ok (f s), s).
Definition modify (f : state -> state) : M unit := fun _ s => (Ok tt, f s).

Notation "x <- c1 ;; c2" := (bind c1 (fun x => c2))
  (at level 61, c1 at next level, right associativity).
Notation "c1 ;; c2" := (bind c1 (fun _ => c2))
  (at level 61, right associativity).

(** [for x in l: body x] *)
Fixpoint for_each {A} (l : list A) (body : A -> M unit) : M unit :=
  match l with
  | [] => ret tt
  | x :: l' => body x ;; for_each l' body
  end.

(** The state a call leaves behind, whether it returned or raised. *)
Definition exec {A} (m : M A) (e : env) (s : state) : state := snd (m e s).
Definition result {A} (m : M A) (e : env) (s : state) : outcome A := fst (m e s).

(** A call to the outside that may fail. *)
Definition external {A} (o : option A) : M A :=
  match o with Some a => ret a | None => raise ExternalError end.

(** [time.time()] *)
Definition time_time : M Q :=
  t <- gets ticks ;;
  c <- ask clock ;;
  modify (set_ticks (S t)) ;;
  ret (c t).

(** ** config.py: the persistence store and the firewall actions *)

(** [os.path.exists('blacklist.json')] *)
Definition os_path_exists : M bool :=
  f <- gets blacklist_json ;;
  ret (match f with Missing => false | _ => true end).

(** [with open('blacklist.json', 'r') as f: json.load(f)] *)
Definition json_load_file : M (dict Entry.t) :=
  f <- gets blacklist_json ;;
  match f with
  | Missing => raise OSError
  | Garbled => raise JSONDecodeError
  | Stored b => ret b
  end.

(** [with open('blacklist.json', 'w') as f: json.dump(b, f, indent=4)] *)
Definition json_dump_file (b : dict Entry.t) : M unit :=
  w <- ask writable ;;
  if w then modify (set_blacklist_json (Stored b)) else raise OSError.

(** [Config.load_blacklist]: the [return] inside the [try] is the
    [Some] case, falling out of the [try] or of the handler is [None]. *)
Definition load_blacklist : M (dict Entry.t) :=
  r <- try_except
         (ex <- os_path_exists ;;
          if ex then (b <- json_load_file ;; ret (Some b)) else ret None)
         (fun _ => ret None) ;;
  match r with
  | Some b => ret b
  | None => ret PyDict.empty
  end.

(** [Config.save_blacklist] *)
Definition save_blacklist (b : dict Entry.t) : M unit := json_dump_file b.

Fixpoint remove_rule (a : string) (rules : list string) : list string :=
  match rules with
  | [] => []
  | r :: rs => if String.eqb a r then remove_rule a rs else r :: remove_rule a rs
  end.

(** [Config.block_ip_windows]: delete the rule of that name, add it. *)
Definition block_ip_windows (ip_address : string) : M bool :=
  modify (fun s => set_firewall (ip_address :: remove_rule ip_address (firewall s)) s) ;;
  ret true.

(** [Config.unblock_ip_windows] *)
Definition unblock_ip_windows (ip_address : string) : M bool :=
  modify (fun s => set_firewall (remove_rule ip_address (firewall s)) s) ;;
  ret true.

(** ** device_manager.py *)

(** The names bound at module level in [device_manager.py]: its three
    import statements and its class. *)
Definition device_manager_globals : list string :=
  ["time"; "datetime"; "timedelta"; "config"; "DeviceManager"].

(** Evaluating a global name of [device_manager.py]. *)
Definition global_name (n : string) : M unit :=
  if PyStr.in_list n device_manager_globals then ret tt else raise (NameError n).

(** [platform.system()], as written in [device_manager.py]. *)
Definition platform_system : M string :=
  global_name "platform" ;;
  ask system.

(** [datetime.now().isoformat()] *)
Definition datetime_now_isoformat : M string :=
  t <- time_time ;;
  f <- ask isoformat ;;
  ret (f t).

(** [DeviceManager.__init__] *)
Definition DeviceManager_init : M unit :=
  modify (set_devices PyDict.empty) ;;
  b <- load_blacklist ;;
  modify (set_blacklist b) ;;
  modify (set_connection_times PyDict.empty).

(** [DeviceManager.update_device] *)
Definition update_device (device_info : Device.t) : M unit :=
  let mac := Device.mac device_info in
  current_time <- time_time ;;
  ct <- gets connection_times ;;
  (if negb (mem mac ct)
   then modify (fun s => set_connection_times (set mac current_time (connection_times s)) s)
   else ret tt) ;;
  ct <- gets connection_times ;;
  bl <- gets blacklist ;;
  match get mac ct with
  | None => raise KeyError (* unreachable: the key is there by now *)
  | Some first =>
      modify (fun s => set_devices
        (set mac
           (Info.mk (Device.ip device_info) (Device.mac device_info)
                    (Device.hostname device_info)
                    first current_time (current_time - first)%Q (mem mac bl))
           (devices s)) s)
  end.

(** Floor division and remainder of a float by a positive integer, and
    [int()]. *)
Definition floordiv (x : Q) (d : Z) : Z := Qfloor (x / inject_Z d)%Q.
Definition pymod (x : Q) (d : Z) : Q := (x - inject_Z (d * floordiv x d))%Q.
Definition int_of (x : Q) : Z := if Qle_bool 0 x then Qfloor x else Qceiling x.

(** [f"{z:02d}"] *)
Definition fmt02d (z : Z) : string :=
  let s := NilZero.string_of_int (Z.to_int z) in
  if (String.length s <? 2)%nat then "0" ++ s else s.

(** [DeviceManager.format_duration] *)
Definition format_duration (seconds : Q) : string :=
  let hours := floordiv seconds 3600 in
  let minutes := floordiv (pymod seconds 3600) 60 in
  let seconds := int_of (pymod seconds 60) in
  fmt02d hours ++ ":" ++ fmt02d minutes ++ ":" ++ fmt02d seconds.

(** The [status] expression of [get_all_devices]. *)
Definition status_of (current_time last_seen : Q) : string :=
  if Qlt_le_dec (current_time - last_seen) 300 then "ACTIVE" else "OFFLINE".

(** One iteration of the loop of [get_all_devices]. *)
Definition format_device (fmt : Q -> string) (current_time : Q)
           (item : string * Info.t) : Row.t :=
  let (mac, info) := item in
  Row.mk mac (Info.ip info) (Info.hostname info)
         (format_duration (Info.connection_duration info))
         (Info.is_blacklisted info)
         (fmt (Info.first_seen info))
         (status_of current_time (Info.last_seen info)).

(** [DeviceManager.get_all_devices] *)
Definition get_all_devices : M (list Row.t) :=
  current_time <- time_time ;;
  fmt <- ask strftime ;;
  ds <- gets devices ;;
  ret (map (format_device fmt current_time) ds).

(** [DeviceManager.blacklist_device] *)
Definition blacklist_device (mac_address reason : string) : M unit :=
  ds <- gets devices ;;
  let device_ip := option_map Info.ip (get mac_address ds) in
  stamp <- datetime_now_isoformat ;;
  modify (fun s => set_blacklist
            (set mac_address (Entry.mk stamp reason device_ip) (blacklist s)) s) ;;
  bl <- gets blacklist ;;
  save_blacklist bl ;;
  match device_ip with
  | Some a =>
      if PyStr.truthy a then
        sys <- platform_system ;;
        if String.eqb sys "Windows" then (block_ip_windows a ;; ret tt) else ret tt
      else ret tt
  | None => ret tt
  end.

(** [DeviceManager.remove_from_blacklist] *)
Definition remove_from_blacklist (mac_address : string) : M unit :=
  bl <- gets blacklist ;;
  match get mac_address bl with
  | Some entry =>
      let device_ip := Entry.ip entry in
      modify (fun s => set_blacklist (del mac_address (blacklist s)) s) ;;
      bl <- gets blacklist ;;
      save_blacklist bl ;;
      match device_ip with
      | Some a =>
          if PyStr.truthy a then
            sys <- platform_system ;;
            if String.eqb sys "Windows" then (unblock_ip_windows a ;; ret tt) else ret tt
          else ret tt
      | None => ret tt
      end
  | None => ret tt
  end.

(** [DeviceManager.check_time_limit] *)
Definition check_time_limit (mac_address : string) (time_limit_minutes : Z) : M bool :=
  ds <- gets devices ;;
  match get mac_address ds with
  | Some info =>
      ret (if Qlt_le_dec (inject_Z (time_limit_minutes * 60)) (Info.connection_duration info)
           then true else false)
  | None => ret false
  end.

(** ** wifi_scanner.py *)

(** One host of an nmap ping scan: its address, and [self.nm[host]]
    ([None] when that mapping is empty), holding
    [['addresses'].get('mac')] and [.hostname()]. *)
Record nm_host := mk_nm_host {
  nm_addr : string;
  nm_record : option (option string * string)
}.

(** What the outside answers during one scan cycle; [None] is a call
    that raises.
    - [arp_a]: the standard output of [arp -a];
    - [srp]: [(psrc, hwsrc)] of each answer to the ARP broadcast;
    - [nmap_hosts]: the hosts of [nm.scan(NETWORK_RANGE, '-sn')];
    - [range_hosts i r]: the hosts of the [i]-th scan of
      [scan_multiple_ranges], which is of the range [r]. *)
Record scan := mk_scan {
  arp_a : option string;
  srp : option (list (string * string));
  nmap_hosts : option (list nm_host);
  range_hosts : nat -> string -> option (list nm_host)
}.

(** [devices = []; for x in l: ... devices.append(y)], an iteration
    that reaches [continue] contributing nothing. *)
Fixpoint collect {A B} (l : list A) (body : A -> M (option B)) : M (list B) :=
  match l with
  | [] => ret []
  | x :: l' =>
      r <- body x ;;
      rest <- collect l' body ;;
      ret (match r with Some y => y :: rest | None => rest end)
  end.

(** [WiFiScanner.get_hostname]: it catches every error itself. *)
Definition get_hostname (ip : string) : M string :=
  r <- ask resolver ;;
  ret (r ip).

(** [WiFiScanner._is_valid_device] *)
Definition _is_valid_device (ip mac : string) : M bool :=
  if PyStr.in_list mac ["FF-FF-FF-FF-FF-FF"; "00:00:00:00:00:00"] then ret false
  else if PyStr.endswith ".255" ip || PyStr.startswith "224." ip
          || PyStr.startswith "239." ip then ret false
  else
    local <- ask LOCAL_IP ;;
    if String.eqb ip local then ret false
    else ret true.

(** The body of the loop of [get_windows_arp_table] for one line. *)
Definition arp_table_line (line : string) : M (option Device.t) :=
  let line := PyStr.strip line in
  range <- ask NETWORK_RANGE ;;
  let first_octet := hd EmptyString (PyStr.split_char "." range) in
  if negb (PyStr.truthy line) || negb (PyStr.startswith first_octet line)
  then ret None
  else
    match PyStr.split_ws line with
    | ip :: mac :: _ =>
        if negb (PyStr.re_match_mac mac) then ret None
        else
          let mac := PyStr.upper (PyStr.replace_char "-" ":" mac) in
          ok <- _is_valid_device ip mac ;;
          if ok then
            h <- get_hostname ip ;;
            ret (Some (Device.mk ip mac h))
          else ret None
    | _ => ret None
    end.

(** [WiFiScanner.get_windows_arp_table] *)
Definition get_windows_arp_table (sc : scan) : M (list Device.t) :=
  try_except
    (out <- external (arp_a sc) ;;
     collect (PyStr.split_char (ascii_of_nat 10) out) arp_table_line)
    (fun _ => ret []).

(** [WiFiScanner.scan_arp] *)
Definition scan_arp (sc : scan) : M (list Device.t) :=
  sys <- ask system ;;
  if String.eqb sys "Windows" then get_windows_arp_table sc
  else
    try_except
      (answers <- external (srp sc) ;;
       collect answers (fun received =>
         let (psrc, hwsrc) := received in
         ok <- _is_valid_device psrc hwsrc ;;
         if ok then
           h <- get_hostname psrc ;;
           ret (Some (Device.mk psrc hwsrc h))
         else ret None))
      (fun _ => ret []).

(** [WiFiScanner.scan_nmap] *)
Definition scan_nmap (sc : scan) : M (list Device.t) :=
  avail <- gets nmap_available ;;
  handle <- gets nm ;;
  if negb avail || negb handle then ret []
  else
    try_except
      (hosts <- external (nmap_hosts sc) ;;
       collect hosts (fun h =>
         match nm_record h with
         | None => ret None
         | Some (addr_mac, _) =>
             let mac := match addr_mac with Some m => m | None => "Unknown" end in
             if String.eqb mac "Unknown" then ret None
             else
               let mac := PyStr.upper mac in
               ok <- _is_valid_device (nm_addr h) mac ;;
               if ok then
                 n <- get_hostname (nm_addr h) ;;
                 ret (Some (Device.mk (nm_addr h) mac n))
               else ret None
         end))
      (fun _ => modify (set_nmap false false) ;; ret []).

(** The body of the loop of [scan_multiple_ranges] for the [i]-th
    range: on an error the loop goes on with the next range. *)
Definition scan_range (sc : scan) (i : nat) (network_range : string)
  : M (list Device.t) :=
  try_except
    (handle <- gets nm ;;
     (if handle then ret tt else raise AttributeError) ;;
     hosts <- external (range_hosts sc i network_range) ;;
     collect hosts (fun h =>
       match nm_record h with
       | None => ret None
       | Some (addr_mac, name) =>
           let mac := match addr_mac with Some m => m | None => "Unknown" end in
           ok <- _is_valid_device (nm_addr h) mac ;;
           if ok then
             ret (Some (Device.mk (nm_addr h) mac
                                  (if PyStr.truthy name then name else "Unknown")))
           else ret None
       end))
    (fun _ => ret []).

Fixpoint scan_ranges (sc : scan) (i : nat) (ranges : list string)
  : M (list Device.t) :=
  match ranges with
  | [] => ret []
  | r :: ranges' =>
      found <- scan_range sc i r ;;
      rest <- scan_ranges sc (S i) ranges' ;;
      ret (found ++ rest)%list
  end.

Definition common_ranges (network_range : string) : list string :=
  [network_range; "192.168.0.0/24"; "192.168.1.0/24"; "192.168.2.0/24";
   "192.168.3.0/24"; "10.0.0.0/24"; "172.16.0.0/24"].

(** [WiFiScanner.scan_multiple_ranges] *)
Definition scan_multiple_ranges (sc : scan) : M (list Device.t) :=
  avail <- gets nmap_available ;;
  if negb avail then ret []
  else
    range <- ask NETWORK_RANGE ;;
    scan_ranges sc 0 (common_ranges range).

(** [for device in l: merged_devices[device['mac']] = device] *)
Definition merge_into (l : list Device.t) (m : dict Device.t) : dict Device.t :=
  fold_left (fun acc device => set (Device.mac device) device acc) l m.

(** The map [get_connected_devices] builds from the two scans. *)
Definition merged_devices (arp_devices nmap_devices : list Device.t) : dict Device.t :=
  merge_into nmap_devices (merge_into arp_devices PyDict.empty).

(** [WiFiScanner.get_connected_devices] *)
Definition get_connected_devices (sc : scan) : M (list Row.t) :=
  arp_devices <- scan_arp sc ;;
  nmap_devices <- scan_nmap sc ;;
  let merged := merged_devices arp_devices nmap_devices in
  merged <- (if is_empty merged
             then (multi_range_devices <- scan_multiple_ranges sc ;;
                   ret (merge_into multi_range_devices merged))
             else ret merged) ;;
  for_each merged (fun item =>
    let (mac, device) := item in
    if negb (String.eqb mac "Unknown") then update_device device else ret tt) ;;
  get_all_devices.

(** [WiFiScanner.__init__]: a [DeviceManager] of its own, and the nmap
    handle when [NmapState] has one. *)
Definition WiFiScanner_init : M unit :=
  DeviceManager_init ;;
  avail <- gets nmap_available ;;
  modify (fun s => set_nmap (nmap_available s) avail s).

(** ** Sequences of calls *)

(** What a client of the scanner and of its device manager may call. *)
Inductive call :=
| Update (device_info : Device.t)
| Blacklist (mac_address reason : string)
| Unblacklist (mac_address : string)
| ListAll
| CheckLimit (mac_address : string) (time_limit_minutes : Z)
| Cycle (sc : scan).

Definition run_call (c : call) : M unit :=
  match c with
  | Update d => update_device d
  | Blacklist m r => blacklist_device m r
  | Unblacklist m => remove_from_blacklist m
  | ListAll => get_all_devices ;; ret tt
  | CheckLimit m t => check_time_limit m t ;; ret tt
  | Cycle sc => get_connected_devices sc ;; ret tt
  end.

(** The state after a sequence of calls; a caller that catches the
    error of one call goes on from the state the call left. *)
Definition after (cs : list call) (e : env) (s : state) : state :=
  fold_left (fun s c => exec (run_call c) e s) cs s.

(** The states of a running program: a scanner constructed over any
    file, firewall and nmap installation, then any calls. *)
Definition reachable (e : env) (s : state) : Prop :=
  exists s0 cs, s = after cs e (exec WiFiScanner_init e s0).

(** A call that is neither [update_device] for [m] nor a scan cycle. *)
Definition leaves_record (m : string) (c : call) : Prop :=
  match c with
  | Update d => Device.mac d <> m
  | Cycle _ => False
  | _ => True
  end.

(** The mapping the store holds, as [load_blacklist] reads it. *)
Definition persisted (s : state) : dict Entry.t :=
  match blacklist_json s with
  | Stored b => b
  | _ => PyDict.empty
  end.

(** The row of [m] in a listing. *)
Definition row_of (m : string) (rows : list Row.t) : option Row.t :=
  find (fun r => String.eqb (Row.mac r) m) rows.

(** A computation keeps a property of the state, whether it returns or
    raises. *)
Definition preserves {A} (P : env -> state -> Prop) (m : M A) : Prop :=
  forall e s, P e s -> P e (exec m e s).

(** The state [update_device] leaves. *)
Definition first_seen_at (mac : string) (now : Q) (ct : dict Q) : Q :=
  match get mac ct with Some f => f | None => now end.

Definition updated (d : Device.t) (e : env) (s : state) : state :=
  let mac := Device.mac d in
  let now := clock e (ticks s) in
  let first := first_seen_at mac now (connection_times s) in
  mk_state
    (set mac (Info.mk (Device.ip d) mac (Device.hostname d) first now
                      (now - first)%Q (mem mac (blacklist s)))
         (devices s))
    (blacklist s)
    (if mem mac (connection_times s) then connection_times s
     else set mac now (connection_times s))
    (S (ticks s)) (blacklist_json s) (firewall s) (nmap_available s) (nm s).

(** The record of [m] was first seen at [f] and last seen at a clock
    reading taken from reading number [lo] on. *)
Definition seen_since (m : string) (f : Q) (lo : nat) (e : env) (s : state) : Prop :=
  exists i t,
    get m (devices s) = Some i /\ get m (connection_times s) = Some f /\
    Info.first_seen i = f /\ lo <= t < ticks s /\ Info.last_seen i = clock e t.

(** A clock that never goes back. *)
Definition monotone (c : nat -> Q) : Prop :=
  forall a b, a <= b -> (c a <= c b)%Q.

(** A computation that never raises. *)
Definition returns {A} (m : M A) : Prop :=
  forall e s, exists a, result m e s = Ok a.

(** The body of the last loop of [get_connected_devices]. *)
Definition update_known (item : string * Device.t) : M unit :=
  let (mac, device) := item in
  if negb (String.eqb mac "Unknown") then update_device device else ret tt.

(** The [update_device] calls that loop makes. *)
Definition updates_of (merged : dict Device.t) : list call :=
  map (fun item => Update (snd item))
      (filter (fun item => negb (String.eqb (fst item) "Unknown")) merged).

(** The scans leave the state alone, up to the loss of the nmap handle. *)
Definition same_but_nmap (s0 : state) (_ : env) (s : state) : Prop :=
  exists a h, s = set_nmap a h s0.

(** The directory holds the MACs [known], in that order, and maybe more
    after them; the record of [m] is [i]. *)
Definition keeps_records (known : list string) (_ : env) (s : state) : Prop :=
  exists new, keys (devices s) = (known ++ new)%list.

Definition record_is (m : string) (i : Info.t) (_ : env) (s : state) : Prop :=
  get m (devices s) = Some i.

(** The blacklist [blacklist_device] builds, and the one
    [remove_from_blacklist] builds. *)
Definition blacklisted (m reason : string) (e : env) (s : state) : dict Entry.t :=
  set m (Entry.mk (isoformat e (clock e (ticks s))) reason
                  (option_map Info.ip (get m (devices s))))
      (blacklist s).

(** How the firewall step of the two blacklist calls ends for the
    address [a] they hold, as [device_manager.py] stands. *)
Definition firewall_step (a : option string) : outcome unit :=
  match a with
  | Some ip => if PyStr.truthy ip then Raise (NameError "platform") else Ok tt
  | None => Ok tt
  end.

(** In memory what is on file (trivially so where the file cannot be
    written). *)
Definition in_sync (e : env) (s : state) : Prop :=
  writable e = true -> blacklist s = persisted s.

(** The verdict of [_is_valid_device] as a function of its arguments
    and of [config.LOCAL_IP]. *)
Definition passes_filter (e : env) (ip mac : string) : bool :=
  negb (PyStr.in_list mac ["FF-FF-FF-FF-FF-FF"; "00:00:00:00:00:00"])
  && negb (PyStr.endswith ".255" ip || PyStr.startswith "224." ip
           || PyStr.startswith "239." ip)
  && negb (String.eqb ip (LOCAL_IP e)).

(** An observation that passes the filter; one whose address is in
    upper case. *)
Definition filtered (e : env) (d : Device.t) : Prop :=
  passes_filter e (Device.ip d) (Device.mac d) = true.

Definition upper_case (d : Device.t) : Prop :=
  PyStr.upper (Device.mac d) = Device.mac d.

(** ** A concrete host for the examples *)

(** A clock that advances one second per reading. *)
Definition ex_clock (n : nat) : Q := inject_Z (Z.of_nat n).

(** A host at 192.168.1.2 on a /25 network, with a writable working
    directory; [sys] is what [platform.system()] returns there. *)
Definition ex_env (sys : string) : env :=
  mk_env ex_clock (fun _ => "1970-01-01 00:00:00") (fun _ => "1970-01-01T00:00:00")
         true sys "192.168.1.2" "192.168.1.0/25" (fun _ => "Unknown").

(** Before anything is constructed: no [blacklist.json], nmap usable. *)
Definition ex_boot : state := mk_state [] [] [] 0 Missing [] true true.

(** A freshly constructed scanner on that host. *)
Definition ex_start (sys : string) : state :=
  exec WiFiScanner_init (ex_env sys) ex_boot.

Definition ex_mac : string := "AA:BB:CC:DD:EE:01".
Definition ex_laptop : Device.t := Device.mk "192.168.1.5" ex_mac "laptop".

(** The laptop has been seen once; then it is put on the blacklist. *)
Definition ex_seen : state :=
  exec (update_device ex_laptop) (ex_env "Linux") (ex_start "Linux").

Definition ex_curfew : state :=
  exec (blacklist_device ex_mac "curfew") (ex_env "Linux") ex_seen.

(** The same for a record that holds no address: there
    [blacklist_device] returns. *)
Definition ex_nameless : Device.t := Device.mk "" "AA:BB:CC:DD:EE:02" "Unknown".

Definition ex_seen_nameless : state :=
  exec (update_device ex_nameless) (ex_env "Linux") (ex_start "Linux").

Definition ex_curfew_nameless : state :=
  exec (blacklist_device "AA:BB:CC:DD:EE:02" "curfew") (ex_env "Linux") ex_seen_nameless.


(** A cycle in which nothing answers. *)
Definition ex_silence : scan :=
  mk_scan (Some "") (Some []) (Some []) (fun _ _ => Some []).

(** What [arp -a] prints on the example host (a /25 network, whose
    broadcast address is 192.168.1.127). *)
Definition ex_arp_a : string :=
  "
Interface: 192.168.1.2 --- 0x5
  Internet Address      Physical Address      Type
  192.168.1.1           aa-bb-cc-dd-ee-01     dynamic
  192.168.1.127         ff-ff-ff-ff-ff-ff     static
  224.0.0.22            01-00-5e-00-00-16     static
".

Definition ex_windows_scan : scan :=
  mk_scan (Some ex_arp_a) None None (fun _ _ => None).

(** The cycle of that scan on a freshly started Windows host. *)
Definition ex_windows_cycle : outcome (list Row.t) * state :=
  get_connected_devices ex_windows_scan (ex_env "Windows") (ex_start "Windows").

(** One interface, reported by scapy and by nmap with the same
    spelling of its address. *)
Definition ex_two_backends : scan :=
  mk_scan (Some "  192.168.1.5           aa-bb-cc-dd-ee-01     dynamic")
          (Some [("192.168.1.5", "aa:bb:cc:dd:ee:01")])
          (Some [mk_nm_host "192.168.1.5" (Some (Some "aa:bb:cc:dd:ee:01", "laptop"))])
          (fun _ _ => None).

(** The directory after one cycle of that scan on a host of system
    [sys]. *)
Definition ex_two_backends_keys (sys : string) : list string :=
  keys (devices (exec (get_connected_devices ex_two_backends)
                      (ex_env sys) (ex_start sys))).

(** ** Invariants of a running program *)

(** The records and the table of first sightings agree: the same MACs
    in the same order; a record is filed under its own MAC, its
    [first_seen] is the table's entry, and its [connection_duration] is
    [last_seen] minus [first_seen]. *)
Definition records_consistent (_ : env) (s : state) : Prop :=
  keys (devices s) = keys (connection_times s) /\
  forall k i,
    In (k, i) (devices s) ->
    Info.mac i = k /\
    get k (connection_times s) = Some (Info.first_seen i) /\
    Info.connection_duration i = (Info.last_seen i - Info.first_seen i)%Q.

(** The firewall holds the rules [rules]. *)
Definition firewall_is (rules : list string) (_ : env) (s : state) : Prop :=
  firewall s = rules.

(** The example host with a working directory that cannot be written. *)
Definition ex_env_readonly : env :=
  mk_env ex_clock (fun _ => "1970-01-01 00:00:00") (fun _ => "1970-01-01T00:00:00")
         false "Linux" "192.168.1.2" "192.168.1.0/25" (fun _ => "Unknown").

(** ** A scan cycle, in terms of what the scans found *)

(** The map a cycle hands to [update_device]: the merge of the ARP and
    nmap scans, and the observations of the common ranges when that
    merge is empty. *)
Definition final_merge (arp_devices nmap_devices multi_range_devices : list Device.t)
  : dict Device.t :=
  let merged := merged_devices arp_devices nmap_devices in
  if is_empty merged then merge_into multi_range_devices merged else merged.

(** Every observation is filed under its own MAC. *)
Definition keyed (m : dict Device.t) : Prop :=
  forall k d, In (k, d) m -> k = Device.mac d.

(** nmap is out of use; the blacklist in memory is [b]. *)
Definition nmap_off (_ : env) (s : state) : Prop :=
  nmap_available s = false.

Definition blacklist_is (b : dict Entry.t) (_ : env) (s : state) : Prop :=
  blacklist s = b.

(** The scan [sc] with other answers from the common ranges. *)
Definition with_range_hosts (sc : scan)
           (rh : nat -> string -> option (list nm_host)) : scan :=
  mk_scan (arp_a sc) (srp sc) (nmap_hosts sc) rh.

(** A cycle in which nmap fails; one in which only the common ranges
    answer, with a host whose hardware address nmap does not know. *)
Definition ex_nmap_fails : scan :=
  mk_scan (Some "") (Some [("192.168.1.5", "aa:bb:cc:dd:ee:01")]) None
          (fun _ _ => None).

Definition ex_ranges_only : scan :=
  mk_scan (Some "") (Some []) (Some [])
          (fun i _ =>
             match i with
             | O => Some [mk_nm_host "192.168.1.7" (Some (None, ""));
                          mk_nm_host "192.168.1.8" (Some (Some "AA:BB:CC:DD:EE:08", "tv"))]
             | _ => Some []
             end).

(** * Properties *)

(** ** Strings *)

Lemma upper_idempotent s : PyStr.upper (PyStr.upper s) = PyStr.upper s.
Proof.
  unfold PyStr.upper. induction s as [|c s IH]; simpl; [reflexivity|].
  rewrite IH. f_equal.
  destruct c as [[] [] [] [] [] [] [] []]; reflexivity.
Qed.

(** ** Dictionaries *)

Section DictFacts.
Context {V : Type}.
Implicit Types (d : dict V) (k : string) (v : V).

Lemma get_set_same k v d : get k (set k v d) = Some v.
Proof.
  induction d as [|[k' v'] d IH]; simpl.
  - now rewrite String.eqb_refl.
  - destruct (String.eqb k k') eqn:E; simpl.
    + now rewrite String.eqb_refl.
    + now rewrite E.
Qed.

Lemma get_set_other k k' v d : k <> k' -> get k (set k' v d) = get k d.
Proof.
  intros N. induction d as [|[k0 v0] d IH]; simpl.
  - apply String.eqb_neq in N. now rewrite N.
  - destruct (String.eqb k' k0) eqn:E; simpl.
    + apply String.eqb_eq in E. subst k0.
      apply String.eqb_neq in N. now rewrite N.
    + now rewrite IH.
Qed.

Lemma get_del_same k d : get k (del k d) = None.
Proof.
  induction d as [|[k' v'] d IH]; simpl; auto.
  destruct (String.eqb k k') eqn:E; simpl; auto. now rewrite E.
Qed.

Lemma get_del_other k k' d : k <> k' -> get k (del k' d) = get k d.
Proof.
  intros N. induction d as [|[k0 v0] d IH]; simpl; auto.
  destruct (String.eqb k' k0) eqn:E; simpl.
  - apply String.eqb_eq in E. subst k0.
    apply String.eqb_neq in N. now rewrite N.
  - now rewrite IH.
Qed.

Lemma del_absent k d : get k d = None -> del k d = d.
Proof.
  induction d as [|[k' v'] d IH]; simpl; auto.
  destruct (String.eqb k k'); [discriminate|].
  intros H. now rewrite IH.
Qed.


Lemma mem_set_same k v d : mem k (set k v d) = true.
Proof. unfold mem. now rewrite get_set_same. Qed.

Lemma mem_set_mono k k' v d : mem k d = true -> mem k (set k' v d) = true.
Proof.
  destruct (string_dec k k') as [->|N].
  - intros _. apply mem_set_same.
  - unfold mem. now rewrite get_set_other.
Qed.

Lemma keys_set_present k v d : mem k d = true -> keys (set k v d) = keys d.
Proof.
  unfold mem, keys.
  induction d as [|[k' v'] d IH]; simpl; [discriminate|].
  destruct (String.eqb k k') eqn:E; simpl.
  - apply String.eqb_eq in E. now subst.
  - intros H. now rewrite IH.
Qed.

Lemma get_In k v d : get k d = Some v -> In (k, v) d.
Proof.
  induction d as [|[k' v'] d IH]; simpl; [discriminate|].
  destruct (String.eqb k k') eqn:E.
  - apply String.eqb_eq in E. subst. intros [= ->]. now left.
  - intros H. right. auto.
Qed.

Lemma mem_keys k d : mem k d = true <-> In k (keys d).
Proof.
  unfold mem, keys.
  induction d as [|[k' v'] d IH]; simpl.
  - split; [discriminate | tauto].
  - destruct (String.eqb k k') eqn:E.
    + apply String.eqb_eq in E. subst. split; auto.
    + apply String.eqb_neq in E. rewrite IH. split; auto.
      intros [H|H]; auto. now elim E.
Qed.

Lemma keys_set_absent k v d :
  mem k d = false -> keys (set k v d) = (keys d ++ [k])%list.
Proof.
  unfold mem, keys.
  induction d as [|[k' v'] d IH]; simpl; [reflexivity|].
  destruct (String.eqb k k') eqn:E; simpl; [discriminate|].
  intros H. now rewrite IH.
Qed.

(** An assignment keeps the keys in place and adds at most one at the
    end. *)
Lemma keys_set_extends k v d :
  exists new, keys (set k v d) = (keys d ++ new)%list.
Proof.
  destruct (mem k d) eqn:E.
  - exists []. rewrite app_nil_r. now apply keys_set_present.
  - exists [k]. now apply keys_set_absent.
Qed.

(** No operation makes a key occur twice, as in a Python [dict]. *)
Lemma NoDup_keys_set k v d : NoDup (keys d) -> NoDup (keys (set k v d)).
Proof.
  intros H. destruct (mem k d) eqn:E.
  - now rewrite keys_set_present.
  - rewrite keys_set_absent by assumption.
    apply NoDup_app; [exact H | repeat constructor; intros [] |].
    intros x Hx [<-|[]]. apply mem_keys in Hx. congruence.
Qed.

Lemma keys_del_incl k d x : In x (keys (del k d)) -> In x (keys d).
Proof.
  unfold keys. induction d as [|[k' v'] d IH]; simpl; auto.
  destruct (String.eqb k k'); simpl; intuition.
Qed.

Lemma NoDup_keys_del k d : NoDup (keys d) -> NoDup (keys (del k d)).
Proof.
  unfold keys. induction d as [|[k' v'] d IH]; simpl; auto.
  intros H. inversion H as [|? ? Hn Hd]; subst.
  destruct (String.eqb k k'); simpl; auto.
  constructor; auto. intros Hin. apply Hn. now apply (keys_del_incl k).
Qed.

End DictFacts.

(** ** Reasoning about computations *)

Section Preservation.
Context {P : env -> state -> Prop}.

Lemma preserves_ret {A} (a : A) : preserves P (ret a).
Proof. intros e s H. exact H. Qed.

Lemma preserves_raise {A} (x : exn) : preserves P (@raise A x).
Proof. intros e s H. exact H. Qed.

Lemma preserves_ask {A} (f : env -> A) : preserves P (ask f).
Proof. intros e s H. exact H. Qed.

Lemma preserves_gets {A} (f : state -> A) : preserves P (gets f).
Proof. intros e s H. exact H. Qed.

Lemma preserves_modify (f : state -> state) :
  (forall e s, P e s -> P e (f s)) -> preserves P (modify f).
Proof. intros Hf e s H. apply Hf, H. Qed.

Lemma preserves_bind {A B} (m : M A) (k : A -> M B) :
  preserves P m -> (forall a, preserves P (k a)) -> preserves P (bind m k).
Proof.
  intros Hm Hk e s H. specialize (Hm e s H).
  unfold exec, bind in *. destruct (m e s) as [[a|x] s']; simpl in *.
  - apply Hk, Hm.
  - exact Hm.
Qed.

Lemma preserves_try {A} (m : M A) (h : exn -> M A) :
  preserves P m -> (forall x, preserves P (h x)) -> preserves P (try_except m h).
Proof.
  intros Hm Hh e s H. specialize (Hm e s H).
  unfold exec, try_except in *. destruct (m e s) as [[a|x] s']; simpl in *.
  - exact Hm.
  - apply Hh, Hm.
Qed.

Lemma preserves_for_each {A} (l : list A) (body : A -> M unit) :
  (forall x, preserves P (body x)) -> preserves P (for_each l body).
Proof.
  intros Hb. induction l as [|x l IH]; simpl.
  - apply preserves_ret.
  - apply preserves_bind; auto.
Qed.

Lemma preserves_collect {A B} (l : list A) (body : A -> M (option B)) :
  (forall x, preserves P (body x)) -> preserves P (collect l body).
Proof.
  intros Hb. induction l as [|x l IH]; simpl.
  - apply preserves_ret.
  - apply preserves_bind; auto. intros r.
    apply preserves_bind; auto. intros rest. apply preserves_ret.
Qed.

Lemma preserves_external {A} (o : option A) : preserves P (external o).
Proof. destruct o; [apply preserves_ret | apply preserves_raise]. Qed.

End Preservation.

(** [update_device] always returns, leaving the state [updated]. *)
Lemma update_device_eq d e s : update_device d e s = (Ok tt, updated d e s).
Proof.
  unfold update_device, updated, first_seen_at, time_time, bind, gets, ask,
    modify, ret.
  simpl. unfold mem.
  destruct (get (Device.mac d) (connection_times s)) as [f|] eqn:E; simpl.
  - rewrite E. reflexivity.
  - rewrite get_set_same. reflexivity.
Qed.

Section PreservationOfCalls.
Context {P : env -> state -> Prop}.

Lemma preserves_update d :
  (forall e s, P e s -> P e (updated d e s)) -> preserves P (update_device d).
Proof. intros H e s Hs. unfold exec. rewrite update_device_eq. apply H, Hs. Qed.

Lemma preserves_time_time :
  (forall e s, P e s -> P e (set_ticks (S (ticks s)) s)) -> preserves P time_time.
Proof. intros H e s Hs. apply H, Hs. Qed.

Lemma preserves_scan_ranges sc rs :
  (forall i r, preserves P (scan_range sc i r)) ->
  forall i, preserves P (scan_ranges sc i rs).
Proof.
  intros H. induction rs as [|r rs IH]; intros i; simpl.
  - apply preserves_ret.
  - apply preserves_bind; [apply H|]. intros found.
    apply preserves_bind; [apply IH|]. intros rest. apply preserves_ret.
Qed.

Lemma preserves_after cs :
  (forall c, preserves P (run_call c)) ->
  forall e s, P e s -> P e (after cs e s).
Proof.
  intros H e. unfold after.
  induction cs as [|c cs IH]; intros s Hs; simpl; auto.
  apply IH, H, Hs.
Qed.

End PreservationOfCalls.

Ltac head_of t := match t with ?f _ => head_of f | _ => t end.

(** One step through a computation: [tac] first, then the shape of the
    computation, then the definition at its head. What is left in the
    end are the updates of the state. *)
Ltac step_preserve tac :=
  lazymatch goal with |- preserves _ _ => idtac end;
  first
    [ tac
    | apply preserves_ret | apply preserves_raise | apply preserves_ask
    | apply preserves_gets | apply preserves_external
    | apply preserves_time_time; intros ? ?
    | apply preserves_update; intros ? ?
    | apply preserves_bind; [ | intro ]
    | apply preserves_try; [ | intro ]
    | apply preserves_for_each; intro
    | apply preserves_collect; intro
    | apply preserves_scan_ranges; intros ? ?
    | match goal with
      | |- preserves _ (let _ := _ in _) => lazy zeta
      | |- preserves _ (if ?b then _ else _) => destruct b
      | |- preserves _ (match ?o with _ => _ end) => destruct o
      end
    | apply preserves_modify; intros ? ?
    | match goal with
      | |- preserves _ ?m => let h := head_of m in unfold h
      end ].

Ltac walk tac := repeat step_preserve tac.

(** ** first_seen and last_seen (C3) *)

Section FirstSeen.
Variables (m : string) (f : Q) (lo : nat).

Lemma seen_since_tick e s :
  seen_since m f lo e s -> seen_since m f lo e (set_ticks (S (ticks s)) s).
Proof.
  intros (i & t & Hd & Hc & Hf & Ht & Hl).
  exists i, t. simpl. repeat split; auto; lia.
Qed.

Lemma seen_since_updated d e s :
  seen_since m f lo e s -> seen_since m f lo e (updated d e s).
Proof.
  intros (i & t & Hd & Hc & Hf & Ht & Hl).
  unfold seen_since, updated, first_seen_at, mem. simpl.
  destruct (string_dec m (Device.mac d)) as [->|N].
  - rewrite Hc, get_set_same.
    eexists; exists (ticks s). simpl. repeat split; auto; lia.
  - rewrite get_set_other by assumption.
    exists i, t. repeat split; auto; try lia.
    destruct (get (Device.mac d) (connection_times s)); auto.
    now rewrite get_set_other.
Qed.

Lemma seen_since_call c : preserves (seen_since m f lo) (run_call c).
Proof.
  destruct c; simpl; walk fail;
    solve [ intros H; exact H
          | apply seen_since_tick
          | apply seen_since_updated ].
Qed.

Lemma seen_since_after cs e s :
  seen_since m f lo e s -> seen_since m f lo e (after cs e s).
Proof. apply preserves_after, seen_since_call. Qed.

End FirstSeen.

(** The first [update_device] for a MAC starts its record. *)
Lemma first_update_seen d e s :
  get (Device.mac d) (connection_times s) = None ->
  seen_since (Device.mac d) (clock e (ticks s)) (ticks s) e
             (exec (update_device d) e s).
Proof.
  intros Hfresh. unfold exec. rewrite update_device_eq. simpl.
  unfold seen_since, updated, first_seen_at, mem. simpl. rewrite Hfresh.
  rewrite !get_set_same.
  eexists; exists (ticks s). simpl. repeat split; auto.
Qed.

(** C3. Take any state in which a MAC has not been seen, a first
    [update_device] call for it, and any calls after that (updates of
    this and of other MACs, blacklist operations, listings, whole scan
    cycles), looked at after a first part [cs1] and again after a
    second part [cs2]. The record exists at all three points, its
    [first_seen] is the clock reading of the first call at each of
    them, and with a clock that never goes back its [last_seen] never
    decreases from one point to the next. *)
Theorem first_seen_set_once_last_seen_monotone :
  forall (e : env) (s : state) (d : Device.t) (cs1 cs2 : list call),
    get (Device.mac d) (connection_times s) = None ->
    let s1 := exec (update_device d) e s in
    let s2 := after cs1 e s1 in
    let s3 := after cs2 e s2 in
    exists i1 i2 i3,
      get (Device.mac d) (devices s1) = Some i1 /\
      get (Device.mac d) (devices s2) = Some i2 /\
      get (Device.mac d) (devices s3) = Some i3 /\
      Info.first_seen i1 = clock e (ticks s) /\
      Info.first_seen i2 = Info.first_seen i1 /\
      Info.first_seen i3 = Info.first_seen i1 /\
      (monotone (clock e) ->
       (Info.last_seen i1 <= Info.last_seen i2)%Q /\
       (Info.last_seen i2 <= Info.last_seen i3)%Q).
Proof.
  intros e s d cs1 cs2 Hfresh s1 s2 s3.
  pose proof (first_update_seen d e s Hfresh) as H1. fold s1 in H1.
  destruct H1 as (i1 & t1 & Hd1 & Hc1 & Hf1 & Ht1 & Hl1).
  assert (H1' : seen_since (Device.mac d) (clock e (ticks s)) t1 e s1).
  { exists i1, t1. repeat split; auto; lia. }
  pose proof (seen_since_after _ _ _ cs1 e s1 H1') as H2. fold s2 in H2.
  destruct H2 as (i2 & t2 & Hd2 & Hc2 & Hf2 & Ht2 & Hl2).
  assert (H2' : seen_since (Device.mac d) (clock e (ticks s)) t2 e s2).
  { exists i2, t2. repeat split; auto; lia. }
  pose proof (seen_since_after _ _ _ cs2 e s2 H2') as H3. fold s3 in H3.
  destruct H3 as (i3 & t3 & Hd3 & _ & Hf3 & Ht3 & Hl3).
  exists i1, i2, i3. repeat split; auto; try congruence.
  - rewrite Hl1, Hl2. apply H. lia.
  - rewrite Hl2, Hl3. apply H. lia.
Qed.

Lemma ex_clock_monotone : monotone ex_clock.
Proof.
  intros a b H. unfold ex_clock. rewrite <- Zle_Qle. lia.
Qed.

(** Witness of the theorem above: on a fresh scanner the laptop is
    updated, updated again, listed and updated once more. *)
Lemma first_seen_set_once_last_seen_monotone_witness :
  get (Device.mac ex_laptop) (connection_times (ex_start "Linux")) = None /\
  exists i1 i2 i3,
    get ex_mac (devices ex_seen) = Some i1 /\
    get ex_mac (devices (after [Update ex_laptop] (ex_env "Linux") ex_seen)) = Some i2 /\
    get ex_mac (devices (after [ListAll; Update ex_laptop] (ex_env "Linux")
                               (after [Update ex_laptop] (ex_env "Linux") ex_seen)))
    = Some i3 /\
    Info.first_seen i1 = ex_clock 0 /\
    Info.first_seen i2 = Info.first_seen i1 /\
    Info.first_seen i3 = Info.first_seen i1 /\
    (Info.last_seen i1 <= Info.last_seen i2)%Q /\
    (Info.last_seen i2 <= Info.last_seen i3)%Q.
Proof.
  assert (Hfresh : get (Device.mac ex_laptop) (connection_times (ex_start "Linux")) = None)
    by reflexivity.
  split; [exact Hfresh|].
  destruct (first_seen_set_once_last_seen_monotone
              (ex_env "Linux") (ex_start "Linux") ex_laptop
              [Update ex_laptop] [ListAll; Update ex_laptop] Hfresh)
    as (i1 & i2 & i3 & H1 & H2 & H3 & H4 & H5 & H6 & H7).
  exists i1, i2, i3.
  destruct (H7 ex_clock_monotone) as [L1 L2].
  repeat (split; [assumption|]). assumption.
Defined.

(** ** The status of a listed record (C4) *)

Lemma status_of_active now last :
  status_of now last = "ACTIVE" <-> (now - last < 300)%Q.
Proof.
  unfold status_of. destruct (Qlt_le_dec (now - last) 300) as [L|G].
  - tauto.
  - split; [discriminate|].
    intros L. exfalso. exact (Qlt_not_le _ _ L G).
Qed.

Lemma status_of_boundary now last :
  (now - last == 300)%Q -> status_of now last = "OFFLINE".
Proof.
  intros E. unfold status_of.
  destruct (Qlt_le_dec (now - last) 300) as [L|G]; auto.
  rewrite E in L. exfalso. exact (Qlt_irrefl _ L).
Qed.

Lemma get_all_devices_eq e s :
  get_all_devices e s =
  (Ok (map (format_device (strftime e) (clock e (ticks s))) (devices s)),
   set_ticks (S (ticks s)) s).
Proof. reflexivity. Qed.

(** C4. [get_all_devices] always returns, one row per record and in
    the order of the records; the row of a record carries its MAC, and
    its status is ACTIVE exactly when the clock reading of the call
    minus the record's [last_seen] is below 300, OFFLINE otherwise, so
    OFFLINE when the difference is exactly 300. *)
Theorem status_active_iff_seen_within_300s :
  forall (e : env) (s : state),
    let now := clock e (ticks s) in
    exists rows,
      result get_all_devices e s = Ok rows /\
      Forall2
        (fun (item : string * Info.t) (r : Row.t) =>
           Row.mac r = fst item /\
           (Row.status r = "ACTIVE" <-> (now - Info.last_seen (snd item) < 300)%Q) /\
           (Row.status r = "ACTIVE" \/ Row.status r = "OFFLINE") /\
           ((now - Info.last_seen (snd item) == 300)%Q -> Row.status r = "OFFLINE"))
        (devices s) rows.
Proof.
  intros e s now. eexists. split.
  - unfold result. rewrite get_all_devices_eq. reflexivity.
  - fold now. induction (devices s) as [|[m i] ds IH]; simpl; constructor; auto.
    simpl. repeat split.
    + apply status_of_active.
    + apply status_of_active.
    + unfold status_of. destruct (Qlt_le_dec _ _); auto.
    + apply status_of_boundary.
Qed.

(** ** The merge of the scans (C5) *)






(** ** Computations that always return *)

Section Returns.

Lemma returns_ret {A} (a : A) : returns (ret a).
Proof. intros e s. now exists a. Qed.

Lemma returns_bind {A B} (m : M A) (k : A -> M B) :
  returns m -> (forall a, returns (k a)) -> returns (bind m k).
Proof.
  intros Hm Hk e s. destruct (Hm e s) as [a Ha].
  unfold result, bind in *. destruct (m e s) as [[a'|x] s']; simpl in *.
  - apply Hk.
  - discriminate.
Qed.

(** A [try] whose handler returns always returns. *)
Lemma returns_try {A} (m : M A) (h : exn -> M A) :
  (forall x, returns (h x)) -> returns (try_except m h).
Proof.
  intros Hh e s. unfold result, try_except.
  destruct (m e s) as [[a|x] s']; simpl.
  - now exists a.
  - apply Hh.
Qed.

Lemma returns_modify f : returns (modify f).
Proof. intros e s. now exists tt. Qed.

Lemma returns_ask {A} (f : env -> A) : returns (ask f).
Proof. intros e s. now exists (f e). Qed.

Lemma returns_gets {A} (f : state -> A) : returns (gets f).
Proof. intros e s. now exists (f s). Qed.

Lemma returns_scan_ranges sc rs i : returns (scan_ranges sc i rs).
Proof.
  revert i. induction rs as [|r rs IH]; intros i; simpl.
  - apply returns_ret.
  - apply returns_bind.
    + apply returns_try. intros x. apply returns_ret.
    + intros found. apply returns_bind; [apply IH|].
      intros rest. apply returns_ret.
Qed.

(** A computation that returns and keeps [P] steps to a state with [P]. *)
Lemma run_ok {A} (P : env -> state -> Prop) (m : M A) e s :
  returns m -> preserves P m -> P e s ->
  exists a s', m e s = (Ok a, s') /\ P e s'.
Proof.
  intros Hr Hp Hs. destruct (Hr e s) as [a Ha]. specialize (Hp e s Hs).
  unfold result, exec in *. destruct (m e s) as [o s']; simpl in *.
  subst o. now exists a, s'.
Qed.

End Returns.

Ltac walk_returns :=
  repeat
    (lazymatch goal with |- returns _ => idtac end;
     first
       [ apply returns_ret | apply returns_ask | apply returns_gets
       | apply returns_modify | apply returns_scan_ranges
       | apply returns_try; intro
       | apply returns_bind; [ | intro ]
       | match goal with
         | |- returns (if ?b then _ else _) => destruct b
         end
       | match goal with
         | |- returns ?m => let h := head_of m in unfold h
         end ]).

Lemma returns_scan_arp sc : returns (scan_arp sc).
Proof. walk_returns. Qed.

Lemma returns_scan_nmap sc : returns (scan_nmap sc).
Proof. walk_returns. Qed.

Lemma returns_scan_multiple_ranges sc : returns (scan_multiple_ranges sc).
Proof. walk_returns. Qed.

(** ** What a scan cycle does to the state *)

Lemma same_but_nmap_refl s e : same_but_nmap s e s.
Proof. exists (nmap_available s), (nm s). now destruct s. Qed.

Lemma scan_arp_state s0 sc : preserves (same_but_nmap s0) (scan_arp sc).
Proof. walk fail. Qed.

Lemma scan_nmap_state s0 sc : preserves (same_but_nmap s0) (scan_nmap sc).
Proof.
  walk fail. intros (fa & fh & ->). now exists false, false.
Qed.

Lemma scan_multiple_ranges_state s0 sc :
  preserves (same_but_nmap s0) (scan_multiple_ranges sc).
Proof. walk fail. Qed.

Lemma scan_arp_exec sc e s : exec (scan_arp sc) e s = s.
Proof.
  assert (H : preserves (fun _ s' => s' = s) (scan_arp sc)) by walk fail.
  now apply H.
Qed.

Lemma scan_multiple_ranges_exec sc e s : exec (scan_multiple_ranges sc) e s = s.
Proof.
  assert (H : preserves (fun _ s' => s' = s) (scan_multiple_ranges sc))
    by walk fail.
  now apply H.
Qed.

(** The last loop of a cycle is a sequence of [update_device] calls. *)
Lemma for_each_update_known merged e s :
  for_each merged update_known e s = (Ok tt, after (updates_of merged) e s).
Proof.
  revert s. induction merged as [|[mac device] merged IH]; intros s.
  - reflexivity.
  - simpl. unfold bind, updates_of. simpl.
    destruct (negb (String.eqb mac "Unknown")); simpl.
    + rewrite update_device_eq. rewrite IH. unfold exec.
      rewrite update_device_eq. reflexivity.
    + apply IH.
Qed.

(** A cycle is: maybe lose the nmap handle, call [update_device] some
    number of times, list. *)
Lemma cycle_as_updates sc e s :
  exists merged a h,
    get_connected_devices sc e s =
    get_all_devices e (after (updates_of merged) e (set_nmap a h s)).
Proof.
  unfold get_connected_devices.
  destruct (run_ok (same_but_nmap s) (scan_arp sc) e s)
    as (arp & s1 & E1 & P1);
    [apply returns_scan_arp | apply scan_arp_state | apply same_but_nmap_refl|].
  destruct (run_ok (same_but_nmap s) (scan_nmap sc) e s1)
    as (nmap_ & s2 & E2 & P2);
    [apply returns_scan_nmap | apply scan_nmap_state | exact P1|].
  unfold bind at 1. rewrite E1. unfold bind at 1. rewrite E2.
  unfold bind at 1.
  destruct (is_empty (merged_devices arp nmap_)).
  - destruct (run_ok (same_but_nmap s) (scan_multiple_ranges sc) e s2)
      as (multi & s3 & E3 & P3);
      [apply returns_scan_multiple_ranges | apply scan_multiple_ranges_state
      | exact P2|].
    unfold bind at 1. rewrite E3. unfold ret at 1.
    destruct P3 as (a & h & ->).
    exists (merge_into multi (merged_devices arp nmap_)), a, h.
    unfold bind.
    change (fun item : string * Device.t => let (mac, device) := item in
              if negb (String.eqb mac "Unknown") then update_device device
              else ret tt) with update_known.
    now rewrite for_each_update_known.
  - unfold ret at 1.
    destruct P2 as (a & h & ->).
    exists (merged_devices arp nmap_), a, h.
    unfold bind.
    change (fun item : string * Device.t => let (mac, device) := item in
              if negb (String.eqb mac "Unknown") then update_device device
              else ret tt) with update_known.
    now rewrite for_each_update_known.
Qed.

(** ** Records are never dropped (C7) *)

Lemma keeps_records_updated known d e s :
  keeps_records known e s -> keeps_records known e (updated d e s).
Proof.
  intros [new H]. unfold keeps_records, updated. simpl.
  destruct (keys_set_extends (Device.mac d)
              (Info.mk (Device.ip d) (Device.mac d) (Device.hostname d)
                 (first_seen_at (Device.mac d) (clock e (ticks s)) (connection_times s))
                 (clock e (ticks s))
                 (clock e (ticks s)
                  - first_seen_at (Device.mac d) (clock e (ticks s))
                                  (connection_times s))%Q
                 (mem (Device.mac d) (blacklist s)))
              (devices s)) as [more ->].
  exists (new ++ more)%list. rewrite H. now rewrite app_assoc.
Qed.

Lemma keeps_records_call known c : preserves (keeps_records known) (run_call c).
Proof.
  destruct c; simpl; walk fail;
    solve [ intros H; exact H | apply keeps_records_updated ].
Qed.

Lemma listed_macs fmt now (ds : dict Info.t) :
  map Row.mac (map (format_device fmt now) ds) = keys ds.
Proof.
  unfold keys. rewrite map_map. apply map_ext. now intros [m i].
Qed.

(** C7. A scan cycle always returns a listing, and whatever the
    backends report the listing holds the MACs that had a record
    before the cycle, in their order, followed by those the cycle
    added: no record is dropped. When the ARP scan, the nmap scan and
    the scan of the common ranges all report nothing, nothing is
    added: the listing has exactly the MACs known before, it is the
    listing [get_all_devices] alone would have given, and the records
    are untouched. *)
Theorem cycle_never_drops_a_record :
  forall (e : env) (s : state) (sc : scan),
    exists rows new,
      result (get_connected_devices sc) e s = Ok rows /\
      map Row.mac rows = (keys (devices s) ++ new)%list /\
      (result (scan_arp sc) e s = Ok [] ->
       result (scan_nmap sc) e s = Ok [] ->
       result (scan_multiple_ranges sc) e (exec (scan_nmap sc) e s) = Ok [] ->
       new = [] /\
       result get_all_devices e s = Ok rows /\
       devices (exec (get_connected_devices sc) e s) = devices s).
Proof.
  intros e s sc.
  destruct (cycle_as_updates sc e s) as (merged & a & h & E).
  set (s' := after (updates_of merged) e (set_nmap a h s)) in *.
  assert (K : keeps_records (keys (devices s)) e s').
  { apply (preserves_after (updates_of merged)
             (keeps_records_call (keys (devices s))) e (set_nmap a h s)).
    exists []. simpl. now rewrite app_nil_r. }
  destruct K as [new K].
  exists (map (format_device (strftime e) (clock e (ticks s'))) (devices s')), new.
  split; [|split].
  - unfold result. now rewrite E, get_all_devices_eq.
  - now rewrite listed_macs.
  - intros H1 H2 H3.
    assert (E1 : scan_arp sc e s = (Ok [], s)).
    { rewrite (surjective_pairing (scan_arp sc e s)).
      f_equal; [exact H1 | apply scan_arp_exec]. }
    assert (E2 : scan_nmap sc e s = (Ok [], exec (scan_nmap sc) e s)).
    { rewrite (surjective_pairing (scan_nmap sc e s)). f_equal. exact H2. }
    assert (E3 : scan_multiple_ranges sc e (exec (scan_nmap sc) e s)
                 = (Ok [], exec (scan_nmap sc) e s)).
    { rewrite (surjective_pairing (scan_multiple_ranges sc e _)).
      f_equal; [exact H3 | apply scan_multiple_ranges_exec]. }
    destruct (scan_nmap_state s sc e s (same_but_nmap_refl s e)) as (a2 & h2 & S2).
    assert (E' : get_connected_devices sc e s
                 = get_all_devices e (set_nmap a2 h2 s)).
    { unfold get_connected_devices.
      unfold bind at 1. rewrite E1. unfold bind at 1. rewrite E2.
      simpl. unfold bind at 1. unfold bind at 1. rewrite E3.
      unfold ret at 1. simpl. rewrite S2. reflexivity. }
    rewrite E' in E. rewrite !get_all_devices_eq in E. simpl in E.
    injection E as Erows Est.
    split; [|split].
    + apply (f_equal (map Row.mac)) in Erows. rewrite !listed_macs in Erows.
      rewrite K in Erows.
      rewrite <- (app_nil_r (keys (devices s))) in Erows at 1.
      apply app_inv_head in Erows. now symmetry.
    + unfold result. rewrite get_all_devices_eq. now rewrite <- Erows.
    + unfold exec. rewrite E', get_all_devices_eq. reflexivity.
Qed.

(** Witness of the theorem above: a cycle in which nothing answers,
    after the laptop has been seen. *)
Lemma cycle_never_drops_a_record_witness :
  exists rows,
    result (get_connected_devices ex_silence) (ex_env "Linux") ex_seen = Ok rows /\
    map Row.mac rows = [ex_mac] /\
    devices (exec (get_connected_devices ex_silence) (ex_env "Linux") ex_seen)
    = devices ex_seen.
Proof.
  destruct (cycle_never_drops_a_record (ex_env "Linux") ex_seen ex_silence)
    as (rows & new & H1 & H2 & H3).
  exists rows. split; [exact H1|].
  destruct H3 as (K1 & _ & K3); try reflexivity.
  split; [|exact K3].
  rewrite H2, K1. reflexivity.
Defined.

(** ** The two blacklist calls, step by step *)

Lemma blacklist_device_eq m reason e s :
  blacklist_device m reason e s =
  let s1 := set_blacklist (blacklisted m reason e s) (set_ticks (S (ticks s)) s) in
  if writable e
  then (firewall_step (option_map Info.ip (get m (devices s))),
        set_blacklist_json (Stored (blacklisted m reason e s)) s1)
  else (Raise OSError, s1).
Proof.
  unfold blacklist_device, save_blacklist, json_dump_file, datetime_now_isoformat,
    time_time, platform_system, global_name, blacklisted, firewall_step,
    bind, gets, ask, modify, ret, raise.
  simpl.
  destruct (writable e); [|reflexivity].
  destruct (get m (devices s)) as [i|]; simpl; [|reflexivity].
  destruct (PyStr.truthy (Info.ip i)); reflexivity.
Qed.

Lemma remove_from_blacklist_eq m e s :
  remove_from_blacklist m e s =
  match get m (blacklist s) with
  | None => (Ok tt, s)
  | Some entry =>
      let s1 := set_blacklist (del m (blacklist s)) s in
      if writable e
      then (firewall_step (Entry.ip entry),
            set_blacklist_json (Stored (del m (blacklist s))) s1)
      else (Raise OSError, s1)
  end.
Proof.
  unfold remove_from_blacklist, save_blacklist, json_dump_file, platform_system,
    global_name, firewall_step, bind, gets, ask, modify, ret, raise.
  simpl.
  destruct (get m (blacklist s)) as [entry|]; [|reflexivity].
  destruct (writable e); [|reflexivity].
  destruct (Entry.ip entry) as [a|]; simpl; [|reflexivity].
  destruct (PyStr.truthy a); reflexivity.
Qed.

(** [blacklist_device] puts the MAC on the in-memory blacklist, however
    the call ends. *)
Lemma blacklist_device_mem m reason e s :
  mem m (blacklist (exec (blacklist_device m reason) e s)) = true.
Proof.
  unfold exec. rewrite blacklist_device_eq. simpl.
  destruct (writable e); simpl; apply mem_set_same.
Qed.

(** ** What a listing shows of the blacklist (C1) *)

Lemma record_is_call m i c :
  leaves_record m c -> preserves (record_is m i) (run_call c).
Proof.
  destruct c; simpl; intros L; try contradiction; walk fail;
    try (intros H; exact H).
  unfold record_is, updated. simpl. intros H.
  rewrite get_set_other; auto.
Qed.

Lemma record_is_after m i cs e s :
  Forall (leaves_record m) cs ->
  record_is m i e s -> record_is m i e (after cs e s).
Proof.
  intros Hcs. revert s. unfold after.
  induction Hcs as [|c cs Hc _ IH]; intros s Hs; simpl; auto.
  apply IH. now apply record_is_call.
Qed.

Lemma row_of_listing fmt now (ds : dict Info.t) m i :
  get m ds = Some i ->
  row_of m (map (format_device fmt now) ds) = Some (format_device fmt now (m, i)).
Proof.
  unfold row_of. induction ds as [|[k v] ds IH]; simpl; [discriminate|].
  rewrite (String.eqb_sym k m).
  destruct (String.eqb m k) eqn:E.
  - apply String.eqb_eq in E. subst k. now intros [= ->].
  - exact IH.
Qed.

(** C1, as the code has it. Of the derived fields of a listed record
    only [status] is computed by the listing, from the clock reading of
    the listing and the reading of the last [update_device] call for
    the MAC. [is_blacklisted] and [connection_duration] are what that
    last [update_device] call stored: membership in the blacklist as it
    was then, and that call's reading minus [first_seen]. So whatever
    calls other than [update_device] for this MAC (and scan cycles,
    which make such calls) come in between, blacklist calls included,
    the listing shows the blacklist of the time of the update; and it
    shows true when [blacklist_device] for the MAC came before the
    update. *)
Theorem listing_shows_blacklist_as_of_last_update :
  forall (e : env) (s : state) (d : Device.t) (cs : list call),
    Forall (leaves_record (Device.mac d)) cs ->
    let m := Device.mac d in
    let t := clock e (ticks s) in
    let s2 := after cs e (exec (update_device d) e s) in
    exists rows r,
      result get_all_devices e s2 = Ok rows /\
      row_of m rows = Some r /\
      Row.status r = status_of (clock e (ticks s2)) t /\
      Row.is_blacklisted r = mem m (blacklist s) /\
      Row.connection_duration r
      = format_duration (t - first_seen_at m t (connection_times s)) /\
      (forall s0 reason,
          s = exec (blacklist_device m reason) e s0 ->
          Row.is_blacklisted r = true).
Proof.
  intros e s d cs Hcs m t s2.
  set (i := Info.mk (Device.ip d) m (Device.hostname d)
                    (first_seen_at m t (connection_times s)) t
                    (t - first_seen_at m t (connection_times s))%Q
                    (mem m (blacklist s))).
  assert (Hi : record_is m i e s2).
  { apply record_is_after; auto.
    unfold record_is, exec. rewrite update_device_eq. simpl.
    apply get_set_same. }
  exists (map (format_device (strftime e) (clock e (ticks s2))) (devices s2)).
  exists (format_device (strftime e) (clock e (ticks s2)) (m, i)).
  split; [|split].
  - unfold result. now rewrite get_all_devices_eq.
  - now apply row_of_listing.
  - simpl. repeat split.
    intros s0 reason ->. apply blacklist_device_mem.
Qed.

(** Witness of the theorem above: the laptop is seen, then blacklisted,
    then listed; the listing shows the blacklist of before. *)
Lemma listing_shows_blacklist_as_of_last_update_witness :
  Forall (leaves_record ex_mac) [Blacklist ex_mac "curfew"] /\
  exists rows r,
    result get_all_devices (ex_env "Linux")
           (after [Blacklist ex_mac "curfew"] (ex_env "Linux") ex_seen) = Ok rows /\
    row_of ex_mac rows = Some r /\
    Row.is_blacklisted r = false.
Proof.
  assert (H : Forall (leaves_record ex_mac) [Blacklist ex_mac "curfew"])
    by (repeat constructor).
  split; [exact H|].
  destruct (listing_shows_blacklist_as_of_last_update
              (ex_env "Linux") (ex_start "Linux") ex_laptop
              [Blacklist ex_mac "curfew"] H)
    as (rows & r & H1 & H2 & _ & H4 & _).
  exists rows, r. repeat split; assumption.
Defined.

(** C1 as the specification states it fails. The laptop has a record;
    [blacklist_device] puts its MAC on the blacklist, in memory and on
    file (the call then raises, see C10); the listing that follows
    still shows [is_blacklisted = false]. The same happens for a record
    without an address, where [blacklist_device] returns. *)
Lemma blacklisted_device_listed_as_not_blacklisted :
  (result (blacklist_device ex_mac "curfew") (ex_env "Linux") ex_seen
   = Raise (NameError "platform") /\
   mem ex_mac (blacklist ex_curfew) = true /\
   mem ex_mac (persisted ex_curfew) = true /\
   exists rows r,
     result get_all_devices (ex_env "Linux") ex_curfew = Ok rows /\
     row_of ex_mac rows = Some r /\
     Row.is_blacklisted r = false) /\
  (result (blacklist_device "AA:BB:CC:DD:EE:02" "curfew") (ex_env "Linux")
          ex_seen_nameless = Ok tt /\
   mem "AA:BB:CC:DD:EE:02" (blacklist ex_curfew_nameless) = true /\
   mem "AA:BB:CC:DD:EE:02" (persisted ex_curfew_nameless) = true /\
   exists rows r,
     result get_all_devices (ex_env "Linux") ex_curfew_nameless = Ok rows /\
     row_of "AA:BB:CC:DD:EE:02" rows = Some r /\
     Row.is_blacklisted r = false).
Proof.
  split; (split; [reflexivity|]); (split; [reflexivity|]);
    (split; [reflexivity|]);
    eexists; eexists; (split; [reflexivity|]); split; reflexivity.
Qed.

(** ** The persistence store (C8, C6) *)

Lemma load_blacklist_eq e s : load_blacklist e s = (Ok (persisted s), s).
Proof.
  destruct s as [ds bl ct tk f fw na h]. destruct f; reflexivity.
Qed.

(** C8. [load_blacklist] returns the mapping the file holds when the
    file can be read, and the empty mapping when there is no file or
    when reading or parsing it fails; it returns in every case, never
    raises, and changes nothing. *)
Theorem load_blacklist_never_raises :
  forall (e : env) (s : state),
    match blacklist_json s with
    | Stored b => load_blacklist e s = (Ok b, s)
    | Missing | Garbled => load_blacklist e s = (Ok PyDict.empty, s)
    end.
Proof.
  intros e s. rewrite load_blacklist_eq. unfold persisted.
  destruct (blacklist_json s); reflexivity.
Qed.

Lemma in_sync_init e s0 : in_sync e (exec WiFiScanner_init e s0).
Proof.
  intros _. destruct s0 as [ds bl ct tk f fw na h]. destruct f; reflexivity.
Qed.

Lemma in_sync_call c : preserves in_sync (run_call c).
Proof.
  destruct c; simpl.
  - walk fail. intros H; exact H.
  - intros e s _ W. unfold exec. rewrite blacklist_device_eq. simpl.
    rewrite W. reflexivity.
  - intros e s H W. unfold exec. rewrite remove_from_blacklist_eq.
    destruct (get mac_address (blacklist s)); simpl; auto.
    rewrite W. reflexivity.
  - walk fail; intros H; exact H.
  - walk fail.
  - walk fail; intros H; exact H.
Qed.

Lemma reachable_in_sync e s : reachable e s -> in_sync e s.
Proof.
  intros (s0 & cs & ->).
  apply preserves_after; [apply in_sync_call | apply in_sync_init].
Qed.



(** ** The missing import (C10) *)

Lemma truthy_nonempty a : a <> "" -> PyStr.truthy a = true.
Proof. destruct a; [congruence | reflexivity]. Qed.

(** C10. [device_manager.py] binds no global [platform]. So, where the
    file can be written: [blacklist_device] for a MAC whose record
    holds a non-empty address raises [NameError], having put the entry
    (with that address) on the blacklist and saved it;
    [remove_from_blacklist] for an entry that holds a non-empty
    address raises [NameError], having deleted the entry and saved
    that. *)
Theorem blacklist_calls_raise_NameError_after_saving :
  forall (e : env) (s : state) (m reason : string),
    writable e = true ->
    PyStr.in_list "platform" device_manager_globals = false /\
    (forall i,
        get m (devices s) = Some i -> Info.ip i <> "" ->
        let s' := exec (blacklist_device m reason) e s in
        result (blacklist_device m reason) e s = Raise (NameError "platform") /\
        (exists entry,
            get m (blacklist s') = Some entry /\
            Entry.reason entry = reason /\
            Entry.ip entry = Some (Info.ip i)) /\
        blacklist_json s' = Stored (blacklist s')) /\
    (forall entry a,
        get m (blacklist s) = Some entry -> Entry.ip entry = Some a -> a <> "" ->
        let s' := exec (remove_from_blacklist m) e s in
        result (remove_from_blacklist m) e s = Raise (NameError "platform") /\
        get m (blacklist s') = None /\
        blacklist_json s' = Stored (blacklist s')).
Proof.
  intros e s m reason W. split; [reflexivity|]. split.
  - intros i Hi Hip s'. subst s'. unfold result, exec.
    rewrite blacklist_device_eq, W. unfold blacklisted. rewrite Hi. simpl.
    rewrite (truthy_nonempty _ Hip). split; [reflexivity|]. split; [|reflexivity].
    eexists. split; [apply get_set_same|]. split; reflexivity.
  - intros entry a He Ha Hne s'. subst s'. unfold result, exec.
    rewrite remove_from_blacklist_eq, W, He. simpl.
    unfold firewall_step. rewrite Ha, (truthy_nonempty _ Hne).
    split; [reflexivity|]. split; [apply get_del_same | reflexivity].
Qed.

(** Witness of the theorem above: blacklisting the laptop raises, and
    so does removing it afterwards. *)
Lemma blacklist_calls_raise_NameError_after_saving_witness :
  writable (ex_env "Linux") = true /\
  result (blacklist_device ex_mac "curfew") (ex_env "Linux") ex_seen
  = Raise (NameError "platform") /\
  result (remove_from_blacklist ex_mac) (ex_env "Linux") ex_curfew
  = Raise (NameError "platform").
Proof.
  assert (W : writable (ex_env "Linux") = true) by reflexivity.
  split; [exact W|]. split.
  - destruct (blacklist_calls_raise_NameError_after_saving
                (ex_env "Linux") ex_seen ex_mac "curfew" W) as (_ & H & _).
    apply (H (Info.mk "192.168.1.5" ex_mac "laptop" 0 0 (0 - 0) false)).
    + reflexivity.
    + discriminate.
  - destruct (blacklist_calls_raise_NameError_after_saving
                (ex_env "Linux") ex_curfew ex_mac "curfew" W) as (_ & _ & H).
    apply (H (Entry.mk "1970-01-01T00:00:00" "curfew" (Some "192.168.1.5"))
             "192.168.1.5").
    + reflexivity.
    + reflexivity.
    + discriminate.
Defined.

(** ** Every backend applies the filter *)

Lemma is_valid_device_eq ip mac e s :
  _is_valid_device ip mac e s = (Ok (passes_filter e ip mac), s).
Proof.
  unfold _is_valid_device, passes_filter.
  destruct (PyStr.in_list mac _); [reflexivity|].
  destruct (_ || _); [reflexivity|].
  unfold bind, ask, ret. simpl.
  destruct (String.eqb ip (LOCAL_IP e)); reflexivity.
Qed.

Section Collected.
Context {A B : Type} (Q : B -> Prop) (e : env).

Lemma collect_Forall (body : A -> M (option B)) :
  (forall x s y s', body x e s = (Ok (Some y), s') -> Q y) ->
  forall l s out s', collect l body e s = (Ok out, s') -> Forall Q out.
Proof.
  intros Hb. induction l as [|x l IH]; intros s out s' H.
  - injection H as <- _. constructor.
  - simpl in H. unfold bind in H.
    destruct (body x e s) as [[r|?] s1] eqn:E1; [|discriminate].
    destruct (collect l body e s1) as [[rest|?] s2] eqn:E2; [|discriminate].
    injection H as <- _.
    specialize (IH _ _ _ E2).
    destruct r as [y|]; auto. constructor; auto. eapply Hb, E1.
Qed.

Lemma try_except_Forall (body : M (list B)) (h : exn -> M unit) s out s' :
  (forall out s', body e s = (Ok out, s') -> Forall Q out) ->
  try_except body (fun x => h x ;; ret []) e s = (Ok out, s') -> Forall Q out.
Proof.
  intros Hb H. unfold try_except in H.
  destruct (body e s) as [[o|x] s1] eqn:E.
  - injection H as <- <-. eapply Hb. reflexivity.
  - unfold bind, ret in H. destruct (h x e s1) as [[[]|?] ?]; [|discriminate].
    injection H as <- _. constructor.
Qed.

Lemma try_except_nil_Forall (body : M (list B)) s out s' :
  (forall out s', body e s = (Ok out, s') -> Forall Q out) ->
  try_except body (fun _ => ret []) e s = (Ok out, s') -> Forall Q out.
Proof.
  intros Hb H. unfold try_except in H.
  destruct (body e s) as [[o|x] s1] eqn:E.
  - injection H as <- <-. eapply Hb. reflexivity.
  - injection H as <- _. constructor.
Qed.

Lemma external_collect_Forall {C} (o : option C) (k : C -> M (list B)) s out s' :
  (forall c s out s', k c e s = (Ok out, s') -> Forall Q out) ->
  (c <- external o ;; k c) e s = (Ok out, s') -> Forall Q out.
Proof.
  intros Hk. unfold bind, external. destruct o as [c|]; simpl.
  - apply Hk.
  - discriminate.
Qed.

End Collected.

Lemma arp_table_line_filtered e line s d s' :
  arp_table_line line e s = (Ok (Some d), s') -> filtered e d /\ upper_case d.
Proof.
  unfold arp_table_line, get_hostname, bind, ask, ret. simpl.
  destruct (_ || _); [discriminate|].
  destruct (PyStr.split_ws _) as [|ip [|mac rest]]; try discriminate.
  destruct (negb _); [discriminate|].
  rewrite is_valid_device_eq.
  destruct (passes_filter _ _ _) eqn:V; [|discriminate].
  intros [= <- _]. split; [exact V|]. apply upper_idempotent.
Qed.

Lemma get_windows_arp_table_filtered sc e s out s' :
  get_windows_arp_table sc e s = (Ok out, s') ->
  Forall (fun d => filtered e d /\ upper_case d) out.
Proof.
  unfold get_windows_arp_table. apply try_except_nil_Forall.
  intros out1 s1. apply external_collect_Forall.
  intros c s2 out2 s3. apply collect_Forall.
  intros x s4 y s5. apply arp_table_line_filtered.
Qed.

Lemma scan_arp_filtered sc e s out s' :
  scan_arp sc e s = (Ok out, s') -> Forall (filtered e) out.
Proof.
  unfold scan_arp. unfold bind at 1, ask at 1.
  destruct (String.eqb (system e) "Windows").
  - intros H. apply get_windows_arp_table_filtered in H.
    eapply Forall_impl; [|exact H]. now intros d [F _].
  - apply try_except_nil_Forall.
    intros out1 s1. apply external_collect_Forall.
    intros c s2 out2 s3. apply collect_Forall.
    intros [psrc hwsrc] s4 y s5.
    unfold get_hostname, bind, ask, ret. rewrite is_valid_device_eq.
    destruct (passes_filter _ _ _) eqn:V; [|discriminate].
    intros [= <- _]. exact V.
Qed.

Lemma scan_nmap_filtered sc e s out s' :
  scan_nmap sc e s = (Ok out, s') ->
  Forall (fun d => filtered e d /\ upper_case d) out.
Proof.
  unfold scan_nmap. unfold bind at 1, gets at 1. unfold bind at 1, gets at 1.
  destruct (_ || _).
  - intros [= <- _]. constructor.
  - apply (try_except_Forall _ e _ (fun _ => modify (set_nmap false false))).
    intros out1 s1. apply external_collect_Forall.
    intros c s2 out2 s3. apply collect_Forall.
    intros h s4 y s5.
    destruct (nm_record h) as [[addr_mac name]|]; [|discriminate].
    cbv zeta. destruct (String.eqb _ "Unknown"); [discriminate|].
    unfold get_hostname, bind, ask, ret. rewrite is_valid_device_eq.
    destruct (passes_filter _ _ _) eqn:V; [|discriminate].
    intros [= <- _]. split; [exact V|]. apply upper_idempotent.
Qed.

Lemma scan_range_filtered sc i r e s out s' :
  scan_range sc i r e s = (Ok out, s') -> Forall (filtered e) out.
Proof.
  unfold scan_range. apply try_except_nil_Forall.
  intros out1 s1. unfold bind at 1, gets at 1. unfold bind at 1.
  destruct (nm s); [|discriminate]. unfold ret at 1.
  apply external_collect_Forall.
  intros c s2 out2 s3. apply collect_Forall.
  intros h s4 y s5.
  destruct (nm_record h) as [[addr_mac name]|]; [|discriminate].
  cbv zeta. unfold bind, ret. rewrite is_valid_device_eq.
  destruct (passes_filter _ _ _) eqn:V; [|discriminate].
  intros [= <- _]. exact V.
Qed.

Lemma scan_ranges_filtered sc e rs :
  forall i s out s',
    scan_ranges sc i rs e s = (Ok out, s') -> Forall (filtered e) out.
Proof.
  induction rs as [|r rs IH]; intros i s out s'; simpl.
  - intros [= <- _]. constructor.
  - unfold bind, ret.
    destruct (scan_range sc i r e s) as [[found|?] s1] eqn:E1; [|discriminate].
    destruct (scan_ranges sc (S i) rs e s1) as [[rest|?] s2] eqn:E2; [|discriminate].
    intros [= <- _]. apply Forall_app. split.
    + eapply scan_range_filtered, E1.
    + eapply IH, E2.
Qed.

Lemma scan_multiple_ranges_filtered sc e s out s' :
  scan_multiple_ranges sc e s = (Ok out, s') -> Forall (filtered e) out.
Proof.
  unfold scan_multiple_ranges. unfold bind at 1, gets at 1.
  destruct (negb _).
  - intros [= <- _]. constructor.
  - unfold bind, ask. apply scan_ranges_filtered.
Qed.

(** What passing the filter excludes. *)
Lemma filtered_excludes e d :
  filtered e d ->
  Device.mac d <> "00:00:00:00:00:00" /\
  Device.mac d <> "FF-FF-FF-FF-FF-FF" /\
  Device.ip d <> LOCAL_IP e /\
  PyStr.endswith ".255" (Device.ip d) = false /\
  PyStr.startswith "224." (Device.ip d) = false /\
  PyStr.startswith "239." (Device.ip d) = false.
Proof.
  unfold filtered, passes_filter, PyStr.in_list. cbn [existsb].
  intros H. apply andb_prop in H as [H H3]. apply andb_prop in H as [H1 H2].
  apply negb_true_iff in H1, H2, H3.
  apply orb_false_elim in H1 as [H1a H1]. apply orb_false_elim in H1 as [H1b _].
  apply orb_false_elim in H2 as [H2 H2c]. apply orb_false_elim in H2 as [H2a H2b].
  apply String.eqb_neq in H1a, H1b, H3. auto 10.
Qed.

Lemma returns_pair {A} (m : M A) e s :
  returns m -> exists a s', m e s = (Ok a, s').
Proof.
  intros Hr. destruct (Hr e s) as [a Ha]. exists a, (exec m e s).
  rewrite (surjective_pairing (m e s)). unfold result in Ha. now rewrite Ha.
Qed.

(** Every backend applies the filter: whatever the outside answers,
    each of the three scans returns, and none of the observations it
    returns has the null hardware address, a network address ending in
    [.255] or starting with [224.] or [239.], or the host's own
    address. *)
Theorem backends_apply_the_filter :
  forall (sc : scan) (e : env) (s : state),
    exists arp s1 nmap_found s2 multi s3,
      scan_arp sc e s = (Ok arp, s1) /\
      scan_nmap sc e s = (Ok nmap_found, s2) /\
      scan_multiple_ranges sc e s = (Ok multi, s3) /\
      Forall
        (fun d =>
           Device.mac d <> "00:00:00:00:00:00" /\
           Device.ip d <> LOCAL_IP e /\
           PyStr.endswith ".255" (Device.ip d) = false /\
           PyStr.startswith "224." (Device.ip d) = false /\
           PyStr.startswith "239." (Device.ip d) = false)
        (arp ++ nmap_found ++ multi)%list.
Proof.
  intros sc e s.
  destruct (returns_pair (scan_arp sc) e s (returns_scan_arp sc)) as (arp & s1 & E1).
  destruct (returns_pair (scan_nmap sc) e s (returns_scan_nmap sc))
    as (nmap_found & s2 & E2).
  destruct (returns_pair (scan_multiple_ranges sc) e s
              (returns_scan_multiple_ranges sc)) as (multi & s3 & E3).
  exists arp, s1, nmap_found, s2, multi, s3.
  repeat (split; [assumption|]).
  assert (F : Forall (filtered e) (arp ++ nmap_found ++ multi)%list).
  { repeat (apply Forall_app; split).
    - eapply scan_arp_filtered, E1.
    - apply scan_nmap_filtered in E2.
      eapply Forall_impl; [|exact E2]. now intros d [F _].
    - eapply scan_multiple_ranges_filtered, E3. }
  eapply Forall_impl; [|exact F].
  intros d Hd. apply filtered_excludes in Hd. tauto.
Qed.

(** ** The validity filter (C2) *)

(** What the filter does reject: the null hardware address, an address
    ending in [.255], the two multicast prefixes it names, and the
    host's own address. *)
Lemma filter_rejects_null_mac ip e s :
  _is_valid_device ip "00:00:00:00:00:00" e s = (Ok false, s).
Proof. reflexivity. Qed.

Lemma filter_rejects_local_ip mac e s :
  _is_valid_device (LOCAL_IP e) mac e s = (Ok false, s).
Proof.
  unfold _is_valid_device.
  destruct (PyStr.in_list mac _); [reflexivity|].
  destruct (_ || _); [reflexivity|].
  unfold bind, ask, ret. now rewrite String.eqb_refl.
Qed.

(** By the hardware address alone the filter rejects only the two
    strings of its list, and the broadcast address is there with
    dashes. *)
Lemma filter_mac_list ip mac e s :
  mac <> "FF-FF-FF-FF-FF-FF" -> mac <> "00:00:00:00:00:00" ->
  _is_valid_device ip mac e s = _is_valid_device ip ex_mac e s.
Proof.
  intros N1 N2. unfold _is_valid_device, PyStr.in_list.
  apply String.eqb_neq in N1, N2. cbn [existsb]. rewrite N1, N2. reflexivity.
Qed.

(** C2 fails on the code. The filter accepts the broadcast hardware
    address in the spelling every backend hands it (colons), so the
    broadcast line of [arp -a] on a /25 network becomes a device of the
    listing; and it accepts multicast network addresses outside
    224.x and 239.x. *)
Theorem broadcast_mac_passes_the_filter :
  result (_is_valid_device "192.168.1.127" "FF:FF:FF:FF:FF:FF")
         (ex_env "Windows") (ex_start "Windows") = Ok true /\
  result (_is_valid_device "192.168.1.127" "ff:ff:ff:ff:ff:ff")
         (ex_env "Linux") (ex_start "Linux") = Ok true /\
  result (_is_valid_device "230.0.0.1" ex_mac)
         (ex_env "Linux") (ex_start "Linux") = Ok true /\
  exists rows r,
    fst ex_windows_cycle = Ok rows /\
    row_of "FF:FF:FF:FF:FF:FF" rows = Some r /\
    Row.ip r = "192.168.1.127" /\
    map Row.mac rows = ["AA:BB:CC:DD:EE:01"; "FF:FF:FF:FF:FF:FF"].
Proof.
  split; [reflexivity|]. split; [reflexivity|]. split; [reflexivity|].
  eexists. eexists. split; [reflexivity|]. split; [reflexivity|].
  split; reflexivity.
Qed.

(** ** One key per interface (C9) *)

(** The ARP table walk of Windows and the nmap scan return hardware
    addresses in upper case only. *)
Theorem table_walk_and_nmap_upper_case :
  forall (sc : scan) (e : env) (s : state),
    (exists out s', get_windows_arp_table sc e s = (Ok out, s') /\
                    Forall upper_case out) /\
    (exists out s', scan_nmap sc e s = (Ok out, s') /\ Forall upper_case out).
Proof.
  intros sc e s. split.
  - destruct (returns_pair (get_windows_arp_table sc) e s) as (out & s' & E).
    { apply returns_try. intros x. apply returns_ret. }
    exists out, s'. split; [exact E|].
    apply get_windows_arp_table_filtered in E.
    eapply Forall_impl; [|exact E]. now intros d [_ U].
  - destruct (returns_pair (scan_nmap sc) e s (returns_scan_nmap sc))
      as (out & s' & E).
    exists out, s'. split; [exact E|].
    apply scan_nmap_filtered in E.
    eapply Forall_impl; [|exact E]. now intros d [_ U].
Qed.

(** C9 fails on the code. On a host that is not Windows the ARP scan
    keeps the address as scapy spells it while the nmap scan
    upper-cases it: one interface, reported to both with the same
    spelling, gets two records. On Windows, where the ARP table walk
    normalises as the nmap scan does, it gets one. *)
Theorem scapy_scan_does_not_normalise_the_mac :
  ex_two_backends_keys "Linux" = ["aa:bb:cc:dd:ee:01"; "AA:BB:CC:DD:EE:01"] /\
  ex_two_backends_keys "Windows" = ["AA:BB:CC:DD:EE:01"].
Proof. split; reflexivity. Qed.

(** * Further properties of the code *)

(** ** device_manager.py: the records *)

Lemma In_set {V} k (v : V) d k' v' :
  In (k', v') (set k v d) -> (k', v') = (k, v) \/ In (k', v') d.
Proof.
  induction d as [|[k0 v0] d IH]; simpl.
  - intros [H|[]]; auto.
  - destruct (String.eqb k k0); simpl; intros [H|H]; auto.
    destruct (IH H); auto.
Qed.

Lemma mem_of_keys {V W} (d : dict V) (d' : dict W) k :
  keys d = keys d' -> mem k d = mem k d'.
Proof.
  intros H. destruct (mem k d) eqn:E, (mem k d') eqn:E'; auto.
  - apply mem_keys in E. rewrite H in E. apply mem_keys in E. congruence.
  - apply mem_keys in E'. rewrite <- H in E'. apply mem_keys in E'. congruence.
Qed.

Lemma keys_set_cases {V} k (v : V) d :
  keys (set k v d) = if mem k d then keys d else (keys d ++ [k])%list.
Proof.
  destruct (mem k d) eqn:E;
    [now apply keys_set_present | now apply keys_set_absent].
Qed.

Lemma records_consistent_updated d e s :
  records_consistent e s -> records_consistent e (updated d e s).
Proof.
  intros [Hk Hr]. unfold records_consistent, updated. simpl.
  pose proof (mem_of_keys (devices s) (connection_times s) (Device.mac d) Hk) as Hm.
  split.
  - destruct (mem (Device.mac d) (connection_times s)) eqn:E.
    + now rewrite keys_set_present.
    + rewrite !keys_set_absent by congruence. now rewrite Hk.
  - intros k i Hin. apply In_set in Hin as [Heq|Hin].
    + injection Heq as -> ->. simpl. split; [reflexivity|]. split; [|reflexivity].
      unfold first_seen_at, mem.
      destruct (get (Device.mac d) (connection_times s)) as [f|] eqn:G;
        [exact G | apply get_set_same].
    + destruct (Hr k i Hin) as (H1 & H2 & H3).
      split; [exact H1|]. split; [|exact H3].
      destruct (mem (Device.mac d) (connection_times s)) eqn:E; auto.
      rewrite get_set_other; auto.
      intros ->. unfold mem in E. now rewrite H2 in E.
Qed.

Lemma records_consistent_call c : preserves records_consistent (run_call c).
Proof.
  destruct c; simpl; walk fail;
    solve [ intros H; exact H | apply records_consistent_updated ].
Qed.

Lemma records_consistent_init e s0 :
  records_consistent e (exec WiFiScanner_init e s0).
Proof.
  destruct s0 as [ds bl ct tk f fw na h].
  destruct f; (split; [reflexivity | intros k i []]).
Qed.

(** In every state of a running program the directory and the table of
    first sightings hold the same MACs in the same order, every record
    is filed under the MAC it carries, its [first_seen] is the entry of
    the table, and its [connection_duration] is its [last_seen] minus
    its [first_seen]: the duration is the span between the first and
    the latest sighting, not the time since the first. *)
Theorem records_stay_consistent :
  forall (e : env) (s : state),
    reachable e s ->
    keys (devices s) = keys (connection_times s) /\
    forall k i,
      In (k, i) (devices s) ->
      Info.mac i = k /\
      get k (connection_times s) = Some (Info.first_seen i) /\
      Info.connection_duration i = (Info.last_seen i - Info.first_seen i)%Q.
Proof.
  intros e s (s0 & cs & ->).
  apply (preserves_after (P := records_consistent) cs records_consistent_call).
  apply records_consistent_init.
Qed.

Lemma ex_seen_reachable : reachable (ex_env "Linux") ex_seen.
Proof. exists ex_boot, [Update ex_laptop]. reflexivity. Qed.

(** Witness of the theorem above: the scanner that has seen the laptop. *)
Lemma records_stay_consistent_witness :
  reachable (ex_env "Linux") ex_seen /\
  keys (devices ex_seen) = keys (connection_times ex_seen) /\
  keys (devices ex_seen) = [ex_mac].
Proof.
  split; [exact ex_seen_reachable|]. split.
  - exact (proj1 (records_stay_consistent _ _ ex_seen_reachable)).
  - reflexivity.
Defined.

(** [check_time_limit] always returns and changes nothing; it answers
    false for a MAC without a record, and in a running program it
    answers true exactly when the record's [last_seen] minus its
    [first_seen] exceeds the limit in seconds. *)
Theorem check_time_limit_measures_first_to_last_sighting :
  forall (e : env) (s : state) (m : string) (minutes : Z),
    reachable e s ->
    exists answer,
      check_time_limit m minutes e s = (Ok answer, s) /\
      (get m (devices s) = None -> answer = false) /\
      (forall i,
          get m (devices s) = Some i ->
          answer = true <->
          (inject_Z (minutes * 60) < Info.last_seen i - Info.first_seen i)%Q).
Proof.
  intros e s m minutes Hr.
  destruct (records_stay_consistent e s Hr) as [_ Hrec].
  unfold check_time_limit, bind, gets, ret.
  destruct (get m (devices s)) as [i|] eqn:G.
  - eexists. split; [reflexivity|]. split; [discriminate|].
    intros i' [= <-].
    destruct (Hrec m i (get_In _ _ _ G)) as (_ & _ & ->).
    destruct (Qlt_le_dec _ _) as [L|L].
    + tauto.
    + split; [discriminate|]. intros L'. exfalso. exact (Qlt_not_le _ _ L' L).
  - exists false. split; [reflexivity|]. split; [reflexivity|]. discriminate.
Qed.

(** Witness of the theorem above: the laptop, seen once, has not
    exceeded a limit of zero minutes. *)
Lemma check_time_limit_measures_first_to_last_sighting_witness :
  reachable (ex_env "Linux") ex_seen /\
  check_time_limit ex_mac 0 (ex_env "Linux") ex_seen = (Ok false, ex_seen).
Proof.
  split; [exact ex_seen_reachable|].
  destruct (check_time_limit_measures_first_to_last_sighting
              (ex_env "Linux") ex_seen ex_mac 0 ex_seen_reachable)
    as (answer & H & _ & Hsome).
  rewrite H. destruct answer; [|reflexivity].
  assert (L : (inject_Z (0 * 60) < ex_clock 0 - ex_clock 0)%Q).
  { apply (Hsome (Info.mk "192.168.1.5" ex_mac "laptop" (ex_clock 0) (ex_clock 0)
                          (ex_clock 0 - ex_clock 0)%Q false));
      reflexivity. }
  vm_compute in L. discriminate.
Defined.

(** ** device_manager.py: the blacklist calls *)

Lemma firewall_is_call rules c : preserves (firewall_is rules) (run_call c).
Proof.
  destruct c; simpl.
  - walk fail. intros H; exact H.
  - intros e s H. unfold firewall_is, exec in *.
    rewrite blacklist_device_eq. simpl. destruct (writable e); exact H.
  - intros e s H. unfold firewall_is, exec in *.
    rewrite remove_from_blacklist_eq.
    destruct (get mac_address (blacklist s)); simpl; [|exact H].
    destruct (writable e); exact H.
  - walk fail; intros H; exact H.
  - walk fail.
  - walk fail; intros H; exact H.
Qed.

(** No call of the device manager and no scan cycle adds or removes a
    firewall rule. In particular [blacklist_device] never reaches
    [config.block_ip_windows] and [remove_from_blacklist] never reaches
    [config.unblock_ip_windows]: with an address at hand both stop at
    the unbound name [platform], without one they skip the step. *)
Theorem device_manager_never_touches_the_firewall :
  forall (e : env) (s : state) (cs : list call),
    firewall (after cs e s) = firewall s.
Proof.
  intros e s cs.
  apply (preserves_after (P := firewall_is (firewall s)) cs
           (firewall_is_call (firewall s))).
  reflexivity.
Qed.

(** How [blacklist_device] ends where the file can be written: it
    raises [NameError] exactly when the directory holds a record for
    the MAC with a non-empty address, and returns otherwise; in both
    cases the entry is in memory and on file, and it holds the address
    of the record, none when the MAC has no record. *)
Theorem blacklist_device_returns_iff_no_address :
  forall (e : env) (s : state) (m reason : string),
    writable e = true ->
    let known := option_map Info.ip (get m (devices s)) in
    let s' := exec (blacklist_device m reason) e s in
    (result (blacklist_device m reason) e s = Ok tt <->
     known = None \/ known = Some "") /\
    (result (blacklist_device m reason) e s = Raise (NameError "platform") <->
     exists a, known = Some a /\ a <> "") /\
    (exists stamp, get m (blacklist s') = Some (Entry.mk stamp reason known)) /\
    blacklist_json s' = Stored (blacklist s').
Proof.
  intros e s m reason W known s'. subst s'. unfold result, exec.
  rewrite blacklist_device_eq, W. simpl. fold known.
  split; [|split; [|split]].
  - destruct known as [[|c a]|]; simpl; split; auto; try discriminate.
    intros [H|H]; discriminate.
  - destruct known as [[|c a]|]; simpl; split; try discriminate.
    + intros (a & [= <-] & N). now elim N.
    + intros _. eexists. split; [reflexivity | discriminate].
    + reflexivity.
    + intros (a & H & _). discriminate.
  - eexists. unfold blacklisted. apply get_set_same.
  - reflexivity.
Qed.

(** Witness of the theorem above: blacklisting a MAC the fresh scanner
    has never seen returns, with no address in the entry. *)
Lemma blacklist_device_returns_iff_no_address_witness :
  writable (ex_env "Linux") = true /\
  result (blacklist_device ex_mac "curfew") (ex_env "Linux") (ex_start "Linux") = Ok tt.
Proof.
  assert (W : writable (ex_env "Linux") = true) by reflexivity.
  split; [exact W|].
  destruct (blacklist_device_returns_iff_no_address
              (ex_env "Linux") (ex_start "Linux") ex_mac "curfew" W) as (H & _).
  apply H. left. reflexivity.
Defined.

(** Where the file cannot be written both blacklist calls raise
    [OSError] after they have changed the blacklist in memory, and
    leave the file as it was: memory and file then differ. (For
    [remove_from_blacklist] this is when the MAC is on the blacklist.) *)
Theorem failed_save_leaves_memory_changed :
  forall (e : env) (s : state) (m reason : string),
    writable e = false ->
    (let s' := exec (blacklist_device m reason) e s in
     result (blacklist_device m reason) e s = Raise OSError /\
     mem m (blacklist s') = true /\
     blacklist_json s' = blacklist_json s) /\
    (mem m (blacklist s) = true ->
     let s' := exec (remove_from_blacklist m) e s in
     result (remove_from_blacklist m) e s = Raise OSError /\
     mem m (blacklist s') = false /\
     blacklist_json s' = blacklist_json s).
Proof.
  intros e s m reason W. split.
  - unfold result, exec. rewrite blacklist_device_eq, W. simpl.
    split; [reflexivity|]. split; [apply mem_set_same | reflexivity].
  - unfold mem at 1. intros H. unfold result, exec.
    rewrite remove_from_blacklist_eq, W.
    destruct (get m (blacklist s)); [|discriminate]. simpl.
    split; [reflexivity|]. split; [|reflexivity].
    unfold mem. now rewrite get_del_same.
Qed.

(** Witness of the theorem above, on the host whose directory is
    read-only. *)
Lemma failed_save_leaves_memory_changed_witness :
  writable ex_env_readonly = false /\
  result (blacklist_device ex_mac "curfew") ex_env_readonly (ex_start "Linux")
  = Raise OSError /\
  mem ex_mac (blacklist (exec (blacklist_device ex_mac "curfew") ex_env_readonly
                              (ex_start "Linux"))) = true /\
  persisted (exec (blacklist_device ex_mac "curfew") ex_env_readonly
                  (ex_start "Linux")) = [].
Proof.
  assert (W : writable ex_env_readonly = false) by reflexivity.
  split; [exact W|].
  destruct (failed_save_leaves_memory_changed
              ex_env_readonly (ex_start "Linux") ex_mac "curfew" W)
    as ((H1 & H2 & H3) & _).
  split; [exact H1|]. split; [exact H2|].
  unfold persisted. rewrite H3. reflexivity.
Defined.

(** [remove_from_blacklist] for a MAC that is not on the blacklist
    returns and changes nothing: the file is not rewritten, so a
    missing or unreadable file stays as it is. *)
Theorem remove_unlisted_changes_nothing :
  forall (e : env) (s : state) (m : string),
    mem m (blacklist s) = false ->
    remove_from_blacklist m e s = (Ok tt, s).
Proof.
  intros e s m H. rewrite remove_from_blacklist_eq.
  unfold mem in H. destruct (get m (blacklist s)); [discriminate | reflexivity].
Qed.

(** Witness of the theorem above. *)
Lemma remove_unlisted_changes_nothing_witness :
  mem ex_mac (blacklist ex_seen) = false /\
  remove_from_blacklist ex_mac (ex_env "Linux") ex_seen = (Ok tt, ex_seen) /\
  blacklist_json ex_seen = Missing.
Proof.
  assert (H : mem ex_mac (blacklist ex_seen) = false) by reflexivity.
  split; [exact H|]. split.
  - exact (remove_unlisted_changes_nothing (ex_env "Linux") ex_seen ex_mac H).
  - reflexivity.
Defined.

(** In a running program whose file can be written, what
    [load_blacklist] reads is at every moment the blacklist the manager
    holds in memory: every change is saved before the call ends. *)
Theorem store_follows_memory :
  forall (e : env) (s : state),
    reachable e s ->
    writable e = true ->
    load_blacklist e s = (Ok (blacklist s), s).
Proof.
  intros e s Hr W. rewrite load_blacklist_eq.
  now rewrite (reachable_in_sync e s Hr W).
Qed.

(** Witness of the theorem above: after the laptop has been
    blacklisted the file holds the entry. *)
Lemma store_follows_memory_witness :
  reachable (ex_env "Linux") ex_curfew /\
  writable (ex_env "Linux") = true /\
  load_blacklist (ex_env "Linux") ex_curfew = (Ok (blacklist ex_curfew), ex_curfew) /\
  keys (blacklist ex_curfew) = [ex_mac].
Proof.
  assert (Hr : reachable (ex_env "Linux") ex_curfew).
  { exists ex_boot, [Update ex_laptop; Blacklist ex_mac "curfew"]. reflexivity. }
  assert (W : writable (ex_env "Linux") = true) by reflexivity.
  split; [exact Hr|]. split; [exact W|]. split.
  - exact (store_follows_memory _ _ Hr W).
  - reflexivity.
Defined.

(** ** wifi_scanner.py: what a cycle does with what the scans found *)

Lemma keyed_merge_into l m0 : keyed m0 -> keyed (merge_into l m0).
Proof.
  revert m0. induction l as [|x l IH]; intros m0 H; [exact H|].
  change (merge_into (x :: l) m0) with (merge_into l (set (Device.mac x) x m0)).
  apply IH. intros k d Hin. apply In_set in Hin as [Heq|Hin].
  - now injection Heq as -> ->.
  - now apply H.
Qed.

Lemma NoDup_merge_into l (m0 : dict Device.t) :
  NoDup (keys m0) -> NoDup (keys (merge_into l m0)).
Proof.
  revert m0. induction l as [|x l IH]; intros m0 H; [exact H|].
  change (merge_into (x :: l) m0) with (merge_into l (set (Device.mac x) x m0)).
  apply IH. now apply NoDup_keys_set.
Qed.

Lemma final_merge_keyed arp nmap_found multi :
  keyed (final_merge arp nmap_found multi) /\
  NoDup (keys (final_merge arp nmap_found multi)).
Proof.
  assert (K0 : keyed (@PyDict.empty Device.t)) by (intros k d []).
  assert (N0 : NoDup (keys (@PyDict.empty Device.t))) by constructor.
  unfold final_merge, merged_devices.
  destruct (is_empty _); split;
    repeat first [ apply keyed_merge_into | apply NoDup_merge_into ];
    assumption.
Qed.

Lemma merge_into_nonempty l (m0 : dict Device.t) :
  is_empty (merge_into l m0) = true -> l = [] /\ is_empty m0 = true.
Proof.
  revert m0. induction l as [|x l IH]; intros m0 H; [now split|].
  change (merge_into (x :: l) m0) with (merge_into l (set (Device.mac x) x m0)) in H.
  apply IH in H as [_ H]. destruct m0 as [|[k v] m0]; simpl in H.
  - discriminate.
  - destruct (String.eqb _ _); discriminate.
Qed.

(** A cycle, stage by stage: the scans return and leave the directory
    alone, the merged observations are fed to [update_device], the
    listing follows. *)
Lemma cycle_stages sc e s :
  exists arp nmap_found multi s2,
    scan_arp sc e s = (Ok arp, s) /\
    scan_nmap sc e s = (Ok nmap_found, s2) /\
    same_but_nmap s e s2 /\
    (if is_empty (merged_devices arp nmap_found)
     then scan_multiple_ranges sc e s2 = (Ok multi, s2)
     else multi = []) /\
    get_connected_devices sc e s =
    get_all_devices e (after (updates_of (final_merge arp nmap_found multi)) e s2).
Proof.
  destruct (returns_pair (scan_arp sc) e s (returns_scan_arp sc)) as (arp & s1 & E1).
  assert (s1 = s) as ->.
  { pose proof (scan_arp_exec sc e s) as H. unfold exec in H. now rewrite E1 in H. }
  destruct (run_ok (same_but_nmap s) (scan_nmap sc) e s)
    as (nmap_found & s2 & E2 & P2);
    [apply returns_scan_nmap | apply scan_nmap_state | apply same_but_nmap_refl|].
  destruct (returns_pair (scan_multiple_ranges sc) e s2
              (returns_scan_multiple_ranges sc)) as (multi & s3 & E3).
  assert (s3 = s2) as ->.
  { pose proof (scan_multiple_ranges_exec sc e s2) as H. unfold exec in H.
    now rewrite E3 in H. }
  exists arp, nmap_found.
  exists (if is_empty (merged_devices arp nmap_found) then multi else []), s2.
  split; [exact E1|]. split; [exact E2|]. split; [exact P2|].
  unfold get_connected_devices, final_merge.
  unfold bind at 1. rewrite E1. unfold bind at 1. rewrite E2.
  unfold bind at 1.
  destruct (is_empty (merged_devices arp nmap_found)).
  - split; [exact E3|].
    unfold bind at 1. rewrite E3. unfold ret at 1. unfold bind.
    change (fun item : string * Device.t => let (mac, device) := item in
              if negb (String.eqb mac "Unknown") then update_device device
              else ret tt) with update_known.
    now rewrite for_each_update_known.
  - split; [reflexivity|].
    unfold ret at 1. unfold bind.
    change (fun item : string * Device.t => let (mac, device) := item in
              if negb (String.eqb mac "Unknown") then update_device device
              else ret tt) with update_known.
    now rewrite for_each_update_known.
Qed.

(** A cycle whose two scans found something. *)
Lemma cycle_nonempty sc e s arp nmap_found s2 :
  scan_arp sc e s = (Ok arp, s) ->
  scan_nmap sc e s = (Ok nmap_found, s2) ->
  is_empty (merged_devices arp nmap_found) = false ->
  get_connected_devices sc e s =
  get_all_devices e (after (updates_of (merged_devices arp nmap_found)) e s2).
Proof.
  intros E1 E2 Hm. unfold get_connected_devices.
  unfold bind at 1. rewrite E1. unfold bind at 1. rewrite E2.
  unfold bind at 1. rewrite Hm. unfold ret at 1. unfold bind.
  change (fun item : string * Device.t => let (mac, device) := item in
            if negb (String.eqb mac "Unknown") then update_device device
            else ret tt) with update_known.
  now rewrite for_each_update_known.
Qed.

(** The common ranges are scanned only when the ARP scan and the nmap
    scan both found nothing: as soon as one of them reports an
    observation, a cycle gives the same listing and leaves the same
    state whatever the scans of the common ranges would answer. *)
Theorem common_ranges_only_when_nothing_found :
  forall (sc : scan) (rh : nat -> string -> option (list nm_host))
         (e : env) (s : state) (arp nmap_found : list Device.t),
    result (scan_arp sc) e s = Ok arp ->
    result (scan_nmap sc) e s = Ok nmap_found ->
    arp <> [] \/ nmap_found <> [] ->
    get_connected_devices (with_range_hosts sc rh) e s = get_connected_devices sc e s.
Proof.
  intros sc rh e s arp nmap_found H1 H2 Hne.
  assert (E1 : scan_arp sc e s = (Ok arp, s)).
  { rewrite (surjective_pairing (scan_arp sc e s)).
    f_equal; [exact H1 | apply scan_arp_exec]. }
  assert (E2 : scan_nmap sc e s = (Ok nmap_found, exec (scan_nmap sc) e s)).
  { rewrite (surjective_pairing (scan_nmap sc e s)). f_equal. exact H2. }
  assert (Hm : is_empty (merged_devices arp nmap_found) = false).
  { destruct (is_empty (merged_devices arp nmap_found)) eqn:E; [|reflexivity].
    unfold merged_devices in E.
    apply merge_into_nonempty in E as [-> E].
    apply merge_into_nonempty in E as [-> _].
    destruct Hne as [N|N]; now elim N. }
  rewrite (cycle_nonempty sc e s arp nmap_found _ E1 E2 Hm).
  apply (cycle_nonempty (with_range_hosts sc rh) e s arp nmap_found _ E1 E2 Hm).
Qed.

(** Witness of the theorem above: scapy sees the laptop, so the answers
    of the common ranges do not matter. *)
Lemma common_ranges_only_when_nothing_found_witness :
  get_connected_devices
    (with_range_hosts ex_nmap_fails (range_hosts ex_ranges_only))
    (ex_env "Linux") (ex_start "Linux")
  = get_connected_devices ex_nmap_fails (ex_env "Linux") (ex_start "Linux").
Proof.
  apply (common_ranges_only_when_nothing_found
           ex_nmap_fails (range_hosts ex_ranges_only)
           (ex_env "Linux") (ex_start "Linux")
           [Device.mk "192.168.1.5" "aa:bb:cc:dd:ee:01" "Unknown"] []).
  - reflexivity.
  - reflexivity.
  - left. discriminate.
Defined.

Lemma updates_of_app l1 l2 :
  updates_of (l1 ++ l2)%list = (updates_of l1 ++ updates_of l2)%list.
Proof. unfold updates_of. now rewrite filter_app, map_app. Qed.

Lemma after_app cs1 cs2 e s :
  after (cs1 ++ cs2)%list e s = after cs2 e (after cs1 e s).
Proof. unfold after. apply fold_left_app. Qed.

Lemma In_keys_set {V} k (v : V) d m :
  In m (keys (set k v d)) <-> In m (keys d) \/ m = k.
Proof.
  rewrite keys_set_cases. destruct (mem k d) eqn:E.
  - apply mem_keys in E. split; [auto|]. intros [H|H]; [exact H | now subst].
  - rewrite in_app_iff. simpl. intuition.
Qed.

(** The MACs of the directory after the updates of a cycle. *)
Lemma keys_after_updates e merged :
  keyed merged ->
  forall s m,
    In m (keys (devices (after (updates_of merged) e s))) <->
    In m (keys (devices s)) \/ (m <> "Unknown" /\ In m (keys merged)).
Proof.
  induction merged as [|[k d] merged IH]; intros K s m.
  - simpl. tauto.
  - assert (K' : keyed merged) by (intros k' d' H; apply K; now right).
    assert (Hk : k = Device.mac d) by (apply K; now left).
    unfold updates_of. simpl filter.
    destruct (String.eqb k "Unknown") eqn:E; simpl negb; cbv iota.
    + apply String.eqb_eq in E. fold (updates_of merged).
      rewrite (IH K'). simpl. intuition. congruence.
    + apply String.eqb_neq in E. simpl map.
      change (after (Update d :: map _ _) e s)
        with (after (updates_of merged) e (exec (update_device d) e s)).
      rewrite (IH K'). unfold exec. rewrite update_device_eq. simpl.
      rewrite In_keys_set. subst k. intuition. subst. auto.
Qed.

(** After a cycle the directory holds the MACs it held before and those
    of the merged observations, except ['Unknown'], and no others: a
    host whose hardware address nmap does not know passes through the
    merge under the key ['Unknown'] but never gets a record. *)
Theorem cycle_files_the_observed_macs :
  forall (sc : scan) (e : env) (s : state),
    exists arp nmap_found multi,
      result (scan_arp sc) e s = Ok arp /\
      result (scan_nmap sc) e s = Ok nmap_found /\
      (if is_empty (merged_devices arp nmap_found)
       then result (scan_multiple_ranges sc) e (exec (scan_nmap sc) e s) = Ok multi
       else multi = []) /\
      forall m,
        In m (keys (devices (exec (get_connected_devices sc) e s))) <->
        In m (keys (devices s)) \/
        (m <> "Unknown" /\ In m (keys (final_merge arp nmap_found multi))).
Proof.
  intros sc e s.
  destruct (cycle_stages sc e s)
    as (arp & nmap_found & multi & s2 & E1 & E2 & (a & h & S2) & E3 & E).
  exists arp, nmap_found, multi.
  split; [unfold result; now rewrite E1|].
  split; [unfold result; now rewrite E2|].
  split.
  - unfold exec. rewrite E2. simpl.
    destruct (is_empty _); [|exact E3]. unfold result. now rewrite E3.
  - intros m. unfold exec. rewrite E, get_all_devices_eq. simpl.
    rewrite (keys_after_updates e _ (proj1 (final_merge_keyed _ _ _))).
    rewrite S2. reflexivity.
Qed.

Lemma after_updates_keeps {P : env -> state -> Prop} merged :
  (forall d e s, P e s -> P e (updated d e s)) ->
  forall e s, P e s -> P e (after (updates_of merged) e s).
Proof.
  intros H e. induction merged as [|[k d] merged IH]; intros s Hs; [exact Hs|].
  unfold updates_of. simpl filter.
  destruct (negb (String.eqb k "Unknown")); [|now apply IH].
  simpl map.
  change (after (Update d :: map _ _) e s)
    with (after (updates_of merged) e (exec (update_device d) e s)).
  apply IH. unfold exec. rewrite update_device_eq. now apply H.
Qed.

Lemma updates_leave_record k merged :
  keyed merged -> ~ In k (keys merged) ->
  Forall (leaves_record k) (updates_of merged).
Proof.
  intros K Hk. unfold updates_of. apply Forall_forall. intros c Hc.
  apply in_map_iff in Hc as ([k' d] & <- & Hin).
  apply filter_In in Hin as [Hin _]. simpl.
  intros E. apply Hk. rewrite <- E, <- (K k' d Hin).
  exact (in_map fst _ (k', d) Hin).
Qed.

(** What the updates of a cycle leave for an observation of the map. *)
Lemma after_updates_record e merged :
  keyed merged -> NoDup (keys merged) ->
  forall s k d,
    In (k, d) merged -> k <> "Unknown" ->
    exists i t,
      get k (devices (after (updates_of merged) e s)) = Some i /\
      Info.ip i = Device.ip d /\
      Info.hostname i = Device.hostname d /\
      Info.is_blacklisted i = mem k (blacklist s) /\
      Info.last_seen i = clock e t /\
      ticks s <= t < ticks (after (updates_of merged) e s).
Proof.
  intros K N s k d Hin Hk.
  destruct (in_split _ _ Hin) as (l1 & l2 & ->).
  assert (Hmac : k = Device.mac d) by now apply K.
  rewrite updates_of_app, after_app.
  set (sa := after (updates_of l1) e s).
  assert (Hbl : blacklist sa = blacklist s).
  { apply (after_updates_keeps (P := blacklist_is (blacklist s)) l1); [|reflexivity].
    intros d0 e0 s0 H. exact H. }
  assert (Hta : ticks s <= ticks sa).
  { apply (after_updates_keeps (P := fun _ s' => ticks s <= ticks s') l1); [|lia].
    intros d0 e0 s0 H. simpl. lia. }
  assert (Hstep : after (updates_of ((k, d) :: l2)) e sa
                  = after (updates_of l2) e (exec (update_device d) e sa)).
  { unfold updates_of. simpl filter.
    apply String.eqb_neq in Hk. rewrite Hk. reflexivity. }
  rewrite Hstep.
  set (su := exec (update_device d) e sa).
  set (i := Info.mk (Device.ip d) (Device.mac d) (Device.hostname d)
                    (first_seen_at (Device.mac d) (clock e (ticks sa))
                                   (connection_times sa))
                    (clock e (ticks sa))
                    (clock e (ticks sa)
                     - first_seen_at (Device.mac d) (clock e (ticks sa))
                                     (connection_times sa))%Q
                    (mem (Device.mac d) (blacklist sa))).
  assert (Hi : record_is k i e su).
  { unfold record_is, su, exec. rewrite update_device_eq. simpl.
    rewrite Hmac. apply get_set_same. }
  assert (Htu : ticks su = S (ticks sa)).
  { unfold su, exec. now rewrite update_device_eq. }
  assert (K2 : keyed l2).
  { intros k' d' H. apply K. apply in_or_app. right. now right. }
  assert (N2 : ~ In k (keys l2)).
  { unfold keys in N. rewrite map_app in N. simpl in N.
    apply NoDup_remove_2 in N. intros H. apply N. apply in_or_app. now right. }
  assert (Ht2 : ticks su <= ticks (after (updates_of l2) e su)).
  { apply (after_updates_keeps (P := fun _ s' => ticks su <= ticks s') l2); [|lia].
    intros d0 e0 s0 H. simpl. lia. }
  assert (Hfinal : get k (devices (after (updates_of l2) e su)) = Some i).
  { apply record_is_after; [now apply updates_leave_record | exact Hi]. }
  clearbody su sa.
  exists i, (ticks sa). split; [exact Hfinal|].
  subst i. simpl. rewrite Hbl, <- Hmac.
  split; [reflexivity|]. split; [reflexivity|]. split; [reflexivity|].
  split; [reflexivity|]. lia.
Qed.

(** After a cycle the listing shows, for every MAC of the merged
    observations other than ['Unknown'], the address and the name of
    the merged observation (so those of nmap where both scans saw the
    MAC), the membership of the MAC in the blacklist the scanner's
    manager held when the cycle began, and a status computed against a
    sighting stamped during this very cycle. *)
Theorem cycle_lists_what_was_merged :
  forall (sc : scan) (e : env) (s : state),
    let s' := exec (get_connected_devices sc) e s in
    exists arp nmap_found multi rows,
      result (scan_arp sc) e s = Ok arp /\
      result (scan_nmap sc) e s = Ok nmap_found /\
      (if is_empty (merged_devices arp nmap_found)
       then result (scan_multiple_ranges sc) e (exec (scan_nmap sc) e s) = Ok multi
       else multi = []) /\
      result (get_connected_devices sc) e s = Ok rows /\
      forall k d,
        get k (final_merge arp nmap_found multi) = Some d ->
        k <> "Unknown" ->
        exists r t,
          row_of k rows = Some r /\
          Row.ip r = Device.ip d /\
          Row.hostname r = Device.hostname d /\
          Row.is_blacklisted r = mem k (blacklist s) /\
          ticks s <= t < pred (ticks s') /\
          Row.status r = status_of (clock e (pred (ticks s'))) (clock e t).
Proof.
  intros sc e s s'.
  destruct (cycle_stages sc e s)
    as (arp & nmap_found & multi & s2 & E1 & E2 & (a & h & S2) & E3 & E).
  set (fm := final_merge arp nmap_found multi) in *.
  set (sb := after (updates_of fm) e s2) in *.
  exists arp, nmap_found, multi.
  exists (map (format_device (strftime e) (clock e (ticks sb))) (devices sb)).
  split; [unfold result; now rewrite E1|].
  split; [unfold result; now rewrite E2|].
  split.
  { unfold exec. rewrite E2. simpl.
    destruct (is_empty _); [|exact E3]. unfold result. now rewrite E3. }
  split; [unfold result; now rewrite E, get_all_devices_eq|].
  intros k d Hg Hk.
  destruct (final_merge_keyed arp nmap_found multi) as [K N].
  destruct (after_updates_record e fm K N s2 k d (get_In _ _ _ Hg) Hk)
    as (i & t & Hi & Hip & Hh & Hb & Hl & Ht).
  fold sb in Hi, Ht.
  assert (Hs' : ticks s' = S (ticks sb)).
  { unfold s', exec. now rewrite E, get_all_devices_eq. }
  assert (Hts : ticks s2 = ticks s) by (rewrite S2; reflexivity).
  assert (Hbs : blacklist s2 = blacklist s) by (rewrite S2; reflexivity).
  exists (format_device (strftime e) (clock e (ticks sb)) (k, i)), t.
  split; [now apply row_of_listing|].
  rewrite Hs'. simpl. rewrite Hip, Hh, Hb, Hl, Hbs.
  split; [reflexivity|]. split; [reflexivity|]. split; [reflexivity|].
  split; [lia | reflexivity].
Qed.

(** ** wifi_scanner.py: nmap, once it has failed *)

Lemma nmap_off_call c : preserves nmap_off (run_call c).
Proof.
  destruct c; simpl.
  - walk fail. intros H; exact H.
  - intros e s H. unfold nmap_off, exec in *.
    rewrite blacklist_device_eq. simpl. destruct (writable e); exact H.
  - intros e s H. unfold nmap_off, exec in *.
    rewrite remove_from_blacklist_eq.
    destruct (get mac_address (blacklist s)); simpl; [|exact H].
    destruct (writable e); exact H.
  - walk fail; intros H; exact H.
  - walk fail.
  - walk fail; solve [ intros H; exact H | reflexivity ].
Qed.

(** When the nmap scan of a cycle raises, the scanner gives nmap up
    for good: after that cycle and whatever calls follow, every nmap
    scan and every scan of the common ranges returns nothing, without
    asking nmap. So from then on a cycle in which the ARP scan finds
    nothing has no fallback. *)
Theorem failed_nmap_scan_disables_nmap_for_good :
  forall (e : env) (s : state) (sc : scan) (cs : list call) (sc' : scan),
    nm s = true ->
    nmap_hosts sc = None ->
    let s' := after cs e (exec (get_connected_devices sc) e s) in
    nmap_available s' = false /\
    scan_nmap sc' e s' = (Ok [], s') /\
    scan_multiple_ranges sc' e s' = (Ok [], s').
Proof.
  intros e s sc cs sc' Hnm Hfail s'.
  assert (Hoff : nmap_off e s').
  { apply (preserves_after cs nmap_off_call).
    destruct (cycle_stages sc e s)
      as (arp & nmap_found & multi & s2 & E1 & E2 & _ & _ & E).
    unfold exec. rewrite E, get_all_devices_eq. simpl.
    apply (after_updates_keeps (P := nmap_off)); [intros d e0 s0 H; exact H|].
    revert E2. unfold scan_nmap, bind, gets. simpl. rewrite Hnm, Hfail.
    destruct (nmap_available s) eqn:A; simpl.
    - intros [= _ <-]. reflexivity.
    - intros [= _ <-]. exact A. }
  unfold nmap_off in Hoff. split; [exact Hoff|].
  unfold scan_nmap, scan_multiple_ranges, bind, gets. simpl.
  rewrite Hoff. split; reflexivity.
Qed.

(** Witness of the theorem above: nmap fails in the first cycle; in the
    next one only the common ranges would answer, and nothing is
    listed but the laptop scapy saw before. *)
Lemma failed_nmap_scan_disables_nmap_for_good_witness :
  nm (ex_start "Linux") = true /\
  nmap_hosts ex_nmap_fails = None /\
  scan_multiple_ranges ex_ranges_only (ex_env "Linux")
    (exec (get_connected_devices ex_nmap_fails) (ex_env "Linux") (ex_start "Linux"))
  = (Ok [],
     exec (get_connected_devices ex_nmap_fails) (ex_env "Linux") (ex_start "Linux")).
Proof.
  assert (H1 : nm (ex_start "Linux") = true) by reflexivity.
  assert (H2 : nmap_hosts ex_nmap_fails = None) by reflexivity.
  split; [exact H1|]. split; [exact H2|].
  exact (proj2 (proj2 (failed_nmap_scan_disables_nmap_for_good
                         (ex_env "Linux") (ex_start "Linux") ex_nmap_fails []
                         ex_ranges_only H1 H2))).
Defined.
